(** * AudioCaptureX: the capture handle, its lifecycle, the capture sink and
      the WAV exporter, embedded from [audio_capture.hpp] / [audio_capture.cpp].

    The C++ class [AudioCapture] is embedded as a record of its member
    variables and every member function as a computation in a small monad
    that threads the object, records the calls made to the two external
    libraries (cubeb and dr_wav) and the user callback in a trace, and has a
    distinguished outcome for undefined behaviour.  Console output
    ([std::cout] / [std::cerr]) is not part of the model.  The two callback
    threads of the backend are modelled as separate, sequential steps. *)

From Stdlib Require Import ZArith List Bool String Ascii Lia.
From Stdlib Require Import Strings.Byte.
From Stdlib Require Import Floats.SpecFloat.
Import ListNotations.

Local Open Scope Z_scope.

(* ================================================================== *)
(** * Part 1: definitions                                              *)
(* ================================================================== *)

(** ** C integer types (LP64: [int] 32 bits, [long] and [size_t] 64 bits) *)

Module CInt.

Definition INT_MIN : Z := - 2 ^ 31.
Definition INT_MAX : Z := 2 ^ 31 - 1.
Definition LONG_MIN : Z := - 2 ^ 63.
Definition LONG_MAX : Z := 2 ^ 63 - 1.

(** Conversion to a signed 32-bit [int] (two's complement wrap). *)
Definition to_int (x : Z) : Z := (x + 2 ^ 31) mod 2 ^ 32 - 2 ^ 31.

(** Conversion to [uint32_t] / [drwav_uint32]. *)
Definition to_uint32 (x : Z) : Z := x mod 2 ^ 32.

(** Conversion to [size_t] / [drwav_uint64]. *)
Definition to_size_t (x : Z) : Z := x mod 2 ^ 64.

Definition in_long (x : Z) : bool := (LONG_MIN <=? x) && (x <=? LONG_MAX).

Definition sizeof_float : Z := 4.

End CInt.
Import CInt.

(** ** The cubeb boundary

    cubeb itself is an external library.  What the code relies on is its
    calling convention: status codes compared against [CUBEB_OK], and
    out-parameters written through the pointers the code passes. *)

Module Cubeb.

Definition CUBEB_OK : Z := 0.

(** Opaque handles; [None] is [nullptr]. *)
Definition cubeb := option nat.
Definition cubeb_stream := option nat.
Definition cubeb_devid := option nat.

Inductive cubeb_sample_format :=
| CUBEB_SAMPLE_S16LE | CUBEB_SAMPLE_S16BE
| CUBEB_SAMPLE_FLOAT32LE | CUBEB_SAMPLE_FLOAT32BE.

Inductive cubeb_channel_layout := CUBEB_LAYOUT_UNDEFINED.
Inductive cubeb_stream_prefs := CUBEB_STREAM_PREF_NONE.

Record cubeb_stream_params := mk_params {
  format : cubeb_sample_format;
  rate : Z;                       (* uint32_t *)
  channels : Z;                   (* uint32_t *)
  layout : cubeb_channel_layout;
  prefs : cubeb_stream_prefs
}.

Record cubeb_device_info := mk_device {
  devid : cubeb_devid;
  device_id : option string;      (* char const *, may be null *)
  friendly_name : option string   (* char const *, may be null *)
}.

(** [collection.device] with [collection.count] its length. *)
Definition cubeb_device_collection := list cubeb_device_info.

Inductive cubeb_state :=
| CUBEB_STATE_STARTED | CUBEB_STATE_STOPPED
| CUBEB_STATE_DRAINED | CUBEB_STATE_ERROR.

(** What the backend answers to the calls made during one member
    function.  Out-parameters are part of the answer:
    - [cubeb_init] returns a status and the value left in [*context];
    - [cubeb_enumerate_devices] returns a status and the collection;
    - [cubeb_stream_init] receives the current [stream] pointer, the
      device, the parameter struct and the latency, and returns a status,
      the value left in [*stream] and the contents left in the parameter
      struct (it is handed over by non-const pointer);
    - [cubeb_stream_start] / [cubeb_stream_stop] return a status. *)
Record backend := mk_backend {
  cubeb_init : Z * cubeb;
  cubeb_enumerate_devices : Z * cubeb_device_collection;
  cubeb_stream_init :
    cubeb_stream -> cubeb_devid -> cubeb_stream_params -> Z ->
    Z * cubeb_stream * cubeb_stream_params;
  cubeb_stream_start : Z;
  cubeb_stream_stop : Z
}.

End Cubeb.
Import Cubeb.

(** ** Samples in memory

    A [float] object is four bytes; the capture buffer and the recording
    accumulator hold them in memory order. *)

Record float := mk_float { byte0 : byte; byte1 : byte; byte2 : byte; byte3 : byte }.

(** [reinterpret_cast<const char*>] on one sample. *)
Definition chars_of_float (f : float) : list byte :=
  [byte0 f; byte1 f; byte2 f; byte3 f].

(** [reinterpret_cast<const char*>(input_samples)] over [n] samples. *)
Definition chars_of_floats (l : list float) : list byte :=
  flat_map chars_of_float l.

(** ** The dr_wav boundary *)

Module DrWav.

Inductive drwav_container := drwav_container_riff.
Inductive drwav_format_tag := DR_WAVE_FORMAT_PCM.

Record drwav_data_format := mk_format {
  container : drwav_container;
  format : drwav_format_tag;
  channels : Z;                   (* drwav_uint32 *)
  sampleRate : Z;                 (* drwav_uint32 *)
  bitsPerSample : Z               (* drwav_uint32 *)
}.

(** What the encoder answers during one export:
    [drwav_init_file_write] succeeds or not, and
    [drwav_write_pcm_frames] reports the number of frames written. *)
Record encoder := mk_encoder {
  drwav_init_file_write : string -> drwav_data_format -> bool;
  drwav_write_pcm_frames : Z -> list Z -> Z
}.

End DrWav.

(** ** Trace of external calls *)

Definition AudioDataCallback := option nat.   (* [None] is an empty std::function *)

Inductive event :=
| E_cubeb_init
| E_cubeb_destroy (ctx : cubeb)
| E_cubeb_enumerate_devices (ctx : cubeb)
| E_cubeb_device_collection_destroy (ctx : cubeb)
| E_cubeb_stream_init (ctx : cubeb) (dev : cubeb_devid)
                      (params : cubeb_stream_params) (latency_frames : Z)
| E_cubeb_stream_get_latency (stm : cubeb_stream)
| E_cubeb_stream_start (stm : cubeb_stream)
| E_cubeb_stream_stop (stm : cubeb_stream)
| E_cubeb_stream_destroy (stm : cubeb_stream)
| E_callback (cb : nat) (audioData : list float)
             (frameCount sampleRate channelCount : Z)
| E_drwav_init_file_write (path : string) (fmt : DrWav.drwav_data_format)
| E_drwav_write_pcm_frames (frames : Z) (pcm : list Z)
| E_drwav_uninit.

(** ** The object *)

Record AudioCapture := mkAudioCapture {
  context : cubeb;
  stream : cubeb_stream;
  inputDeviceId : cubeb_devid;
  callback : AudioDataCallback;
  capturing : bool;                 (* std::atomic<bool> *)
  shouldStop : bool;                (* std::atomic<bool> *)
  sampleRate : Z;                   (* std::atomic<int> *)
  channelCount : Z;                 (* std::atomic<int> *)
  currentDeviceName : string;
  inputDeviceIndex : Z;
  initialized : bool;
  recordedAudio : list byte;        (* std::vector<char> *)
  outputFile : string
}.

Definition set_context v (a : AudioCapture) :=
  mkAudioCapture v (stream a) (inputDeviceId a) (callback a) (capturing a)
    (shouldStop a) (sampleRate a) (channelCount a) (currentDeviceName a)
    (inputDeviceIndex a) (initialized a) (recordedAudio a) (outputFile a).
Definition set_stream v (a : AudioCapture) :=
  mkAudioCapture (context a) v (inputDeviceId a) (callback a) (capturing a)
    (shouldStop a) (sampleRate a) (channelCount a) (currentDeviceName a)
    (inputDeviceIndex a) (initialized a) (recordedAudio a) (outputFile a).
Definition set_inputDeviceId v (a : AudioCapture) :=
  mkAudioCapture (context a) (stream a) v (callback a) (capturing a)
    (shouldStop a) (sampleRate a) (channelCount a) (currentDeviceName a)
    (inputDeviceIndex a) (initialized a) (recordedAudio a) (outputFile a).
Definition set_callback v (a : AudioCapture) :=
  mkAudioCapture (context a) (stream a) (inputDeviceId a) v (capturing a)
    (shouldStop a) (sampleRate a) (channelCount a) (currentDeviceName a)
    (inputDeviceIndex a) (initialized a) (recordedAudio a) (outputFile a).
Definition set_capturing v (a : AudioCapture) :=
  mkAudioCapture (context a) (stream a) (inputDeviceId a) (callback a) v
    (shouldStop a) (sampleRate a) (channelCount a) (currentDeviceName a)
    (inputDeviceIndex a) (initialized a) (recordedAudio a) (outputFile a).
Definition set_shouldStop v (a : AudioCapture) :=
  mkAudioCapture (context a) (stream a) (inputDeviceId a) (callback a)
    (capturing a) v (sampleRate a) (channelCount a) (currentDeviceName a)
    (inputDeviceIndex a) (initialized a) (recordedAudio a) (outputFile a).
Definition set_sampleRate v (a : AudioCapture) :=
  mkAudioCapture (context a) (stream a) (inputDeviceId a) (callback a)
    (capturing a) (shouldStop a) v (channelCount a) (currentDeviceName a)
    (inputDeviceIndex a) (initialized a) (recordedAudio a) (outputFile a).
Definition set_channelCount v (a : AudioCapture) :=
  mkAudioCapture (context a) (stream a) (inputDeviceId a) (callback a)
    (capturing a) (shouldStop a) (sampleRate a) v (currentDeviceName a)
    (inputDeviceIndex a) (initialized a) (recordedAudio a) (outputFile a).
Definition set_currentDeviceName v (a : AudioCapture) :=
  mkAudioCapture (context a) (stream a) (inputDeviceId a) (callback a)
    (capturing a) (shouldStop a) (sampleRate a) (channelCount a) v
    (inputDeviceIndex a) (initialized a) (recordedAudio a) (outputFile a).
Definition set_inputDeviceIndex v (a : AudioCapture) :=
  mkAudioCapture (context a) (stream a) (inputDeviceId a) (callback a)
    (capturing a) (shouldStop a) (sampleRate a) (channelCount a)
    (currentDeviceName a) v (initialized a) (recordedAudio a) (outputFile a).
Definition set_initialized v (a : AudioCapture) :=
  mkAudioCapture (context a) (stream a) (inputDeviceId a) (callback a)
    (capturing a) (shouldStop a) (sampleRate a) (channelCount a)
    (currentDeviceName a) (inputDeviceIndex a) v (recordedAudio a) (outputFile a).
Definition set_recordedAudio v (a : AudioCapture) :=
  mkAudioCapture (context a) (stream a) (inputDeviceId a) (callback a)
    (capturing a) (shouldStop a) (sampleRate a) (channelCount a)
    (currentDeviceName a) (inputDeviceIndex a) (initialized a) v (outputFile a).
Definition set_outputFile v (a : AudioCapture) :=
  mkAudioCapture (context a) (stream a) (inputDeviceId a) (callback a)
    (capturing a) (shouldStop a) (sampleRate a) (channelCount a)
    (currentDeviceName a) (inputDeviceIndex a) (initialized a) (recordedAudio a) v.

(** ** The monad of member functions

    A member function maps the object to [None] when it runs into undefined
    behaviour, and otherwise to its return value, the object as it leaves it
    and the external calls it made, in order. *)

Definition M (A : Type) : Type :=
  AudioCapture -> option (A * AudioCapture * list event).

Definition ret {A} (a : A) : M A := fun this => Some (a, this, []).

Definition bind {A B} (m : M A) (f : A -> M B) : M B :=
  fun this =>
    match m this with
    | None => None
    | Some (a, this1, t1) =>
        match f a this1 with
        | None => None
        | Some (b, this2, t2) => Some (b, this2, t1 ++ t2)
        end
    end.

Definition undefined {A} : M A := fun _ => None.
Definition emit (e : event) : M unit := fun this => Some (tt, this, [e]).
Definition load {A} (field : AudioCapture -> A) : M A :=
  fun this => Some (field this, this, []).
Definition store (upd : AudioCapture -> AudioCapture) : M unit :=
  fun this => Some (tt, upd this, []).

Declare Scope cpp_scope.
Delimit Scope cpp_scope with cpp.
Notation "x <- m ;; k" := (bind m (fun x => k))
  (at level 61, m at next level, right associativity) : cpp_scope.
Notation "m ;;; k" := (bind m (fun _ => k))
  (at level 61, right associativity) : cpp_scope.
Local Open Scope cpp_scope.

Definition is_null {A} (p : option A) : bool :=
  match p with None => true | Some _ => false end.

(** ** Member functions *)

(** [AudioCapture::initializeCubeb] *)
Definition initializeCubeb (be : backend) : M bool :=
  emit E_cubeb_init ;;;
  let '(r, ctx) := cubeb_init be in
  store (set_context ctx) ;;;
  if negb (r =? CUBEB_OK) then ret false else
  emit (E_cubeb_enumerate_devices ctx) ;;;
  let '(r, collection) := cubeb_enumerate_devices be in
  if negb (r =? CUBEB_OK) then
    emit (E_cubeb_destroy ctx) ;;;
    store (set_context None) ;;;
    ret false
  else
  match collection with
  | [] =>
      emit (E_cubeb_device_collection_destroy ctx) ;;;
      emit (E_cubeb_destroy ctx) ;;;
      store (set_context None) ;;;
      ret false
  | device0 :: _ =>
      store (set_inputDeviceId (devid device0)) ;;;
      store (set_currentDeviceName
               match friendly_name device0 with
               | Some name => name
               | None => "Unknown Device"%string
               end) ;;;
      store (set_inputDeviceIndex 0) ;;;
      emit (E_cubeb_device_collection_destroy ctx) ;;;
      store (set_initialized true) ;;;
      ret true
  end.

(** [AudioCapture::AudioCapture(AudioDataCallback)]: the member
    initialisers, then [initializeCubeb] whose result is only logged. *)
Definition constructed (cb : AudioDataCallback) : AudioCapture :=
  {| context := None; stream := None; inputDeviceId := None;
     callback := cb; capturing := false; shouldStop := false;
     sampleRate := 0; channelCount := 0; currentDeviceName := EmptyString;
     inputDeviceIndex := -1; initialized := false; recordedAudio := [];
     outputFile := "captured-audio.wav" |}.

Definition AudioCapture_ctor (be : backend) (cb : AudioDataCallback)
  : option (AudioCapture * list event) :=
  match initializeCubeb be (constructed cb) with
  | Some (_, this, t) => Some (this, t)
  | None => None
  end.

(** [AudioCapture::cleanup] *)
Definition cleanup : M unit :=
  stm <- load stream ;;
  (if is_null stm then ret tt else
     emit (E_cubeb_stream_stop stm) ;;;
     emit (E_cubeb_stream_destroy stm) ;;;
     store (set_stream None)) ;;;
  ctx <- load context ;;
  (if is_null ctx then ret tt else
     emit (E_cubeb_destroy ctx) ;;;
     store (set_context None)) ;;;
  store (set_inputDeviceId None) ;;;
  store (set_initialized false).

(** [AudioCapture::setInputDevice] *)
Definition setInputDevice (be : backend) (deviceIndex : Z) : M bool :=
  ini <- load initialized ;;
  ctx <- load context ;;
  if negb ini || is_null ctx then ret false else
  cap <- load capturing ;;
  if cap then ret false else
  emit (E_cubeb_enumerate_devices ctx) ;;;
  let '(r, collection) := cubeb_enumerate_devices be in
  if negb (r =? CUBEB_OK) then ret false else
  if (deviceIndex <? 0)
     || (to_int (Z.of_nat (List.length collection)) <=? deviceIndex) then
    emit (E_cubeb_device_collection_destroy ctx) ;;;
    ret false
  else
  match nth_error collection (Z.to_nat deviceIndex) with
  | None => undefined
  | Some device =>
      store (set_inputDeviceId (devid device)) ;;;
      store (set_inputDeviceIndex deviceIndex) ;;;
      match friendly_name device, device_id device with
      | Some name, _ => store (set_currentDeviceName name)
      | None, Some name => store (set_currentDeviceName name)
      | None, None => undefined    (* std::string assigned from a null pointer *)
      end ;;;
      emit (E_cubeb_device_collection_destroy ctx) ;;;
      ret true
  end.

(** [AudioCapture::startCapture] *)
Definition startCapture (be : backend) (deviceIndex : Z) : M bool :=
  ini <- load initialized ;;
  if negb ini then ret false else
  cap <- load capturing ;;
  if cap then ret false else
  device_ok <- (if 0 <=? deviceIndex then setInputDevice be deviceIndex
                else ret true) ;;
  if negb device_ok then ret false else
  dev <- load inputDeviceId ;;
  if is_null dev then ret false else
  let input_params :=
    {| Cubeb.format := CUBEB_SAMPLE_FLOAT32LE;
       rate := 48000;
       Cubeb.channels := 2;
       layout := CUBEB_LAYOUT_UNDEFINED;
       prefs := CUBEB_STREAM_PREF_NONE |} in
  let latency_frames := 4096 in
  ctx <- load context ;;
  stm <- load stream ;;
  emit (E_cubeb_stream_init ctx dev input_params latency_frames) ;;;
  let '(r, stm, input_params) :=
    cubeb_stream_init be stm dev input_params latency_frames in
  store (set_stream stm) ;;;
  if negb (r =? CUBEB_OK) then ret false else
  emit (E_cubeb_stream_get_latency stm) ;;;
  store (set_sampleRate (to_int (rate input_params))) ;;;
  store (set_channelCount (to_int (Cubeb.channels input_params))) ;;;
  store (set_recordedAudio []) ;;;
  emit (E_cubeb_stream_start stm) ;;;
  let r := cubeb_stream_start be in
  if negb (r =? CUBEB_OK) then
    emit (E_cubeb_stream_destroy stm) ;;;
    store (set_stream None) ;;;
    ret false
  else
  store (set_shouldStop false) ;;;
  store (set_capturing true) ;;;
  ret true.

(** [AudioCapture::stopCapture] *)
Definition stopCapture (be : backend) : M bool :=
  cap <- load capturing ;;
  if negb cap then ret true else
  store (set_shouldStop true) ;;;
  stm <- load stream ;;
  (if is_null stm then ret tt else
     emit (E_cubeb_stream_stop stm) ;;;
     let r := cubeb_stream_stop be in
     if negb (r =? CUBEB_OK) then ret tt   (* the error is only logged *)
     else ret tt) ;;;
  store (set_capturing false) ;;;
  ret true.

(** [AudioCapture::isCapturing], [getSampleRate], [getChannelCount],
    [getCurrentInputDevice] *)
Definition isCapturing (this : AudioCapture) : bool := capturing this.
Definition getSampleRate (this : AudioCapture) : Z := sampleRate this.
Definition getChannelCount (this : AudioCapture) : Z := channelCount this.
Definition getCurrentInputDevice (this : AudioCapture) : string :=
  currentDeviceName this.

(** [AudioCapture::setCallback], [AudioCapture::setOutputFile] *)
Definition setCallback (cb : AudioDataCallback) : M unit :=
  store (set_callback cb).
Definition setOutputFile (filename : string) : M unit :=
  store (set_outputFile filename).

(** [AudioCapture::getAvailableInputDevices] *)
Definition device_names (collection : cubeb_device_collection) : list string :=
  flat_map (fun d =>
              match friendly_name d, device_id d with
              | Some name, _ => [name]
              | None, Some name => [name]
              | None, None => []
              end) collection.

Definition getAvailableInputDevices (be : backend) : M (list string) :=
  ini <- load initialized ;;
  ctx <- load context ;;
  if negb ini || is_null ctx then ret [] else
  emit (E_cubeb_enumerate_devices ctx) ;;;
  let '(r, collection) := cubeb_enumerate_devices be in
  if negb (r =? CUBEB_OK) then ret [] else
  emit (E_cubeb_device_collection_destroy ctx) ;;;
  ret (device_names collection).

(** ** Capture sink *)

(** [AudioCapture::onAudioData]: the user callback is invoked when the slot
    holds one. *)
Definition onAudioData (audioData : list float) (frameCount : Z) : M unit :=
  cb <- load callback ;;
  match cb with
  | Some f =>
      sr <- load sampleRate ;;
      cc <- load channelCount ;;
      emit (E_callback f audioData frameCount sr cc)
  | None => ret tt
  end.

(** Body of [AudioCapture::dataCallback] once [capture] and [input_buffer]
    are known to be non-null.  [input_samples] is the array of [float]
    objects that can be read at [input_buffer]; [nframes] is a [long].
    Forming the range [input_samples, input_samples + sample_count) is
    undefined when [sample_count] is negative or exceeds that array, and so
    is overflow of the [long] product. *)
Definition dataCallback_capture (input_samples : list float) (nframes : Z) : M Z :=
  cc <- load channelCount ;;
  if negb (in_long (nframes * cc)) then undefined else
  let sample_count := to_int (nframes * cc) in
  if (sample_count <? 0)
     || (Z.of_nat (List.length input_samples) <? sample_count) then undefined else
  let audio_data := firstn (Z.to_nat sample_count) input_samples in
  rec <- load recordedAudio ;;
  store (set_recordedAudio
           (rec ++ firstn (Z.to_nat (to_size_t (to_size_t sample_count * sizeof_float)))
                          (chars_of_floats input_samples))) ;;;
  onAudioData audio_data (to_int nframes) ;;;
  ret nframes.

(** [AudioCapture::dataCallback] (static): [user_ptr] is the registered
    object or null, [input_buffer] the delivered buffer or null. *)
Definition dataCallback (user_ptr : option AudioCapture)
    (input_buffer : option (list float)) (nframes : Z)
  : option (Z * option AudioCapture * list event) :=
  match user_ptr, input_buffer with
  | Some capture, Some input_samples =>
      match dataCallback_capture input_samples nframes capture with
      | Some (r, capture', t) => Some (r, Some capture', t)
      | None => None
      end
  | _, _ => Some (0, user_ptr, [])
  end.

(** [AudioCapture::stateCallback] (static) *)
Definition stateCallback (user_ptr : option AudioCapture) (state : cubeb_state)
  : option AudioCapture :=
  match user_ptr with
  | None => None
  | Some capture =>
      Some match state with
           | CUBEB_STATE_STARTED => capture
           | CUBEB_STATE_STOPPED => set_capturing false capture
           | CUBEB_STATE_DRAINED => capture
           | CUBEB_STATE_ERROR => set_capturing false capture
           end
  end.

(** ** IEEE 754 binary32, the type of the samples

    Arithmetic on [float] is that of [SpecFloat] at precision 24 and
    maximal exponent 128, rounding to nearest even. *)

Module Float32.

Definition prec : Z := 24.
Definition emax : Z := 128.

(** The 32-bit pattern of a sample on a little-endian host. *)
Definition bits (f : float) : Z :=
  Z.of_N (Byte.to_N (byte0 f))
  + Z.shiftl (Z.of_N (Byte.to_N (byte1 f))) 8
  + Z.shiftl (Z.of_N (Byte.to_N (byte2 f))) 16
  + Z.shiftl (Z.of_N (Byte.to_N (byte3 f))) 24.

(** Sign bit, biased exponent and fraction fields to a number. *)
Definition of_bits (w : Z) : spec_float :=
  let s := Z.testbit w 31 in
  let e := Z.land (Z.shiftr w 23) 255 in
  let f := Z.land w (2 ^ 23 - 1) in
  if e =? 0 then
    match f with
    | Zpos m => S754_finite s m (-149)
    | _ => S754_zero s
    end
  else if e =? 255 then
    if f =? 0 then S754_infinity s else S754_nan
  else
    match f + 2 ^ 23 with
    | Zpos m => S754_finite s m (e - 150)
    | _ => S754_nan
    end.

(** The value read by [floatData[i]]. *)
Definition value (f : float) : spec_float := of_bits (bits f).

(** The literals [1.0f], [-1.0f] and [32767.0f]. *)
Definition lit_1_0f : spec_float := S754_finite false 8388608 (-23).
Definition lit_m1_0f : spec_float := S754_finite true 8388608 (-23).
Definition lit_32767_0f : spec_float := S754_finite false 16776704 (-9).

Definition lt (a b : spec_float) : bool := SFltb a b.
Definition mul (a b : spec_float) : spec_float := SFmul prec emax a b.

(** [std::min(a, b)] is [(b < a) ? b : a]; [std::max(a, b)] is
    [(a < b) ? b : a]. *)
Definition std_min (a b : spec_float) : spec_float := if lt b a then b else a.
Definition std_max (a b : spec_float) : spec_float := if lt a b then b else a.

(** Truncation toward zero of a finite number. *)
Definition trunc (x : spec_float) : option Z :=
  match x with
  | S754_zero _ => Some 0
  | S754_finite s m e =>
      Some (cond_Zopp s (if 0 <=? e then Zpos m * 2 ^ e
                         else Zpos m / 2 ^ (- e)))
  | S754_infinity _ | S754_nan => None
  end.

(** [static_cast<int16_t>(x)]: the fractional part is discarded; the
    behaviour is undefined when the truncated value is not representable
    in [int16_t]. *)
Definition static_cast_int16 (x : spec_float) : option Z :=
  match trunc x with
  | Some z => if (-32768 <=? z) && (z <=? 32767) then Some z else None
  | None => None
  end.

End Float32.

(** ** WAV exporter *)

(** [std::string::find_last_of] for a one-character set; [None] is [npos]. *)
Fixpoint find_last_of (c : ascii) (s : string) : option nat :=
  match s with
  | EmptyString => None
  | String a s' =>
      match find_last_of c s' with
      | Some i => Some (S i)
      | None => if Ascii.eqb a c then Some O else None
      end
  end.

(** The file name computed at the head of [saveRecordedAudio];
    [npos + 1] wraps to [0], and a count of [npos] takes the whole string. *)
Definition wav_file_name (outputFile : string) : string :=
  let wavFile := outputFile in
  let dot := find_last_of "."%char wavFile in
  let extension :=
    match dot with
    | Some i => substring (S i) (String.length wavFile - S i) wavFile
    | None => wavFile
    end in
  if String.eqb extension "wav" then wavFile
  else
    (match dot with
     | Some i => substring 0 i wavFile
     | None => wavFile
     end ++ ".wav")%string.

(** [reinterpret_cast<const float *>(recordedAudio.data())]: the complete
    [float] objects laid out in the accumulator. *)
Fixpoint floats_of_chars (l : list byte) : list float :=
  match l with
  | c0 :: c1 :: c2 :: c3 :: rest => mk_float c0 c1 c2 c3 :: floats_of_chars rest
  | _ => []
  end.

(** One iteration of the conversion loop. *)
Definition pcm_of_float (x : float) : option Z :=
  let sample :=
    Float32.std_max Float32.lit_m1_0f
      (Float32.std_min Float32.lit_1_0f (Float32.value x)) in
  Float32.static_cast_int16 (Float32.mul sample Float32.lit_32767_0f).

(** The conversion loop over [floatData[0 .. numSamples)], pushing onto
    [pcmData]. *)
Fixpoint convert_loop (floatData : list float) (pcmData : list Z)
  : option (list Z) :=
  match floatData with
  | [] => Some pcmData
  | x :: rest =>
      match pcm_of_float x with
      | Some pcmSample => convert_loop rest (pcmData ++ [pcmSample])
      | None => None
      end
  end.

(** [AudioCapture::saveRecordedAudio] *)
Definition saveRecordedAudio (enc : DrWav.encoder) : M bool :=
  rec <- load recordedAudio ;;
  match rec with
  | [] => ret false
  | _ :: _ =>
  file <- load outputFile ;;
  let wavFile := wav_file_name file in
  numChannels <- load channelCount ;;
  sampleRate <- load sampleRate ;;
  let numSamples := to_int (Z.of_nat (List.length rec) / sizeof_float) in
  match convert_loop (firstn (Z.to_nat numSamples) (floats_of_chars rec)) [] with
  | None => undefined
  | Some pcmData =>
  let format :=
    {| DrWav.container := DrWav.drwav_container_riff;
       DrWav.format := DrWav.DR_WAVE_FORMAT_PCM;
       DrWav.channels := to_uint32 numChannels;
       DrWav.sampleRate := to_uint32 sampleRate;
       DrWav.bitsPerSample := 16 |} in
  emit (E_drwav_init_file_write wavFile format) ;;;
  if negb (DrWav.drwav_init_file_write enc wavFile format) then ret false else
  (* pcmData.size() / numChannels is a division in size_t *)
  if to_size_t numChannels =? 0 then undefined else
  let frames := Z.of_nat (List.length pcmData) / to_size_t numChannels in
  emit (E_drwav_write_pcm_frames frames pcmData) ;;;
  let framesWritten := DrWav.drwav_write_pcm_frames enc frames pcmData in
  emit E_drwav_uninit ;;;
  if framesWritten =? 0 then ret false else ret true
  end
  end.

(** ** Sequences of calls on one handle *)

(** The two lifecycle calls, each with what the backend answers during it. *)
Inductive lifecycle_call :=
| Start (be : backend) (deviceIndex : Z)
| Stop (be : backend).

Definition lifecycle_step (c : lifecycle_call) : M bool :=
  match c with
  | Start be deviceIndex => startCapture be deviceIndex
  | Stop be => stopCapture be
  end.

(** The calls of a sequence in order; after each call its return value and
    the object it leaves.  The run ends at undefined behaviour. *)
Fixpoint run_lifecycle (this : AudioCapture) (cs : list lifecycle_call)
  : list (lifecycle_call * bool * AudioCapture) :=
  match cs with
  | [] => []
  | c :: cs' =>
      match lifecycle_step c this with
      | None => []
      | Some (r, this', _) => (c, r, this') :: run_lifecycle this' cs'
      end
  end.

(** A device the code can take a name from. *)
Definition named (d : cubeb_device_info) : bool :=
  negb (is_null (friendly_name d) && is_null (device_id d)).

Definition lifecycle_named (c : lifecycle_call) : bool :=
  match c with
  | Start be _ => forallb named (snd (cubeb_enumerate_devices be))
  | Stop _ => true
  end.

(** The control-plane operations of the public interface. *)
Inductive api_call :=
| Call_startCapture (be : backend) (deviceIndex : Z)
| Call_stopCapture (be : backend)
| Call_setInputDevice (be : backend) (deviceIndex : Z)
| Call_getAvailableInputDevices (be : backend)
| Call_setCallback (cb : AudioDataCallback)
| Call_setOutputFile (filename : string)
| Call_saveRecordedAudio (enc : DrWav.encoder).

Inductive api_result :=
| R_bool (b : bool)
| R_devices (names : list string)
| R_void.

Definition api_step (c : api_call) : M api_result :=
  match c with
  | Call_startCapture be i => b <- startCapture be i ;; ret (R_bool b)
  | Call_stopCapture be => b <- stopCapture be ;; ret (R_bool b)
  | Call_setInputDevice be i => b <- setInputDevice be i ;; ret (R_bool b)
  | Call_getAvailableInputDevices be =>
      l <- getAvailableInputDevices be ;; ret (R_devices l)
  | Call_setCallback cb => setCallback cb ;;; ret R_void
  | Call_setOutputFile f => setOutputFile f ;;; ret R_void
  | Call_saveRecordedAudio enc => b <- saveRecordedAudio enc ;; ret (R_bool b)
  end.

Fixpoint run_api (this : AudioCapture) (cs : list api_call)
  : list (api_call * api_result * list event * AudioCapture) :=
  match cs with
  | [] => []
  | c :: cs' =>
      match api_step c this with
      | None => []
      | Some (r, this', t) => (c, r, t, this') :: run_api this' cs'
      end
  end.

(** Successive deliveries of non-null buffers of [nframes] frames to the
    registered object; the values returned to the backend are collected. *)
Fixpoint deliver (capture : AudioCapture) (buffers : list (list float))
    (nframes : Z) : option (list Z * AudioCapture) :=
  match buffers with
  | [] => Some ([], capture)
  | b :: rest =>
      match dataCallback (Some capture) (Some b) nframes with
      | Some (r, Some capture', _) =>
          match deliver capture' rest nframes with
          | Some (rs, capture'') => Some (r :: rs, capture'')
          | None => None
          end
      | _ => None
      end
  end.

(** ** The conversion as the specification words it

    Clamp to [-1.0, 1.0], scale by 32767, truncate toward zero. *)

Definition clamped (v c : spec_float) : Prop :=
  SFleb Float32.lit_m1_0f c = true /\
  SFleb c Float32.lit_1_0f = true /\
  (SFltb v Float32.lit_m1_0f = true -> c = Float32.lit_m1_0f) /\
  (SFltb Float32.lit_1_0f v = true -> c = Float32.lit_1_0f) /\
  (SFleb Float32.lit_m1_0f v = true -> SFleb v Float32.lit_1_0f = true -> c = v).

Definition spec_pcm (v : spec_float) (z : Z) : Prop :=
  exists c, clamped v c /\
            Float32.trunc (Float32.mul c Float32.lit_32767_0f) = Some z.

(** ** Vocabulary of the statements *)

(** The parameter struct as [startCapture] fills it in before the call. *)
Definition requested_params : cubeb_stream_params :=
  {| Cubeb.format := CUBEB_SAMPLE_FLOAT32LE;
     rate := 48000;
     Cubeb.channels := 2;
     layout := CUBEB_LAYOUT_UNDEFINED;
     prefs := CUBEB_STREAM_PREF_NONE |}.

(** What the backend answers to the stream creation of a [startCapture]
    that took [this] to [this']. *)
Definition stream_init_reply (be : backend) (this this' : AudioCapture) :=
  cubeb_stream_init be (stream this) (inputDeviceId this') requested_params 4096.

(** The part of the object the session is made of. *)
Definition same_session (a b : AudioCapture) : Prop :=
  capturing a = capturing b /\ sampleRate a = sampleRate b /\
  channelCount a = channelCount b /\ recordedAudio a = recordedAudio b.

Definition creates_stream (t : list event) : Prop :=
  exists ctx dev p l, In (E_cubeb_stream_init ctx dev p l) t.

(** Backend initialisation fails during construction: the backend is
    unavailable, enumeration fails, or there is no input device. *)
Definition init_fails (be : backend) : Prop :=
  fst (cubeb_init be) <> CUBEB_OK \/
  fst (cubeb_enumerate_devices be) <> CUBEB_OK \/
  snd (cubeb_enumerate_devices be) = [].


Definition lifecycle_post (x : lifecycle_call * bool * AudioCapture) : Prop :=
  let '(c, r, this') := x in
  match c with
  | Stop _ => r = true /\ isCapturing this' = false
  | Start _ _ => r = true -> isCapturing this' = true
  end.


Definition degraded (x : api_call * api_result * list event * AudioCapture) : Prop :=
  let '(c, r, t, _) := x in
  match c with
  | Call_startCapture _ _ => r = R_bool false /\ t = []
  | Call_setInputDevice _ _ => r = R_bool false /\ t = []
  | Call_getAvailableInputDevices _ => r = R_devices [] /\ t = []
  | _ => True
  end.

(** ** Concrete backends, encoders and handles of the examples *)

Definition two_devices : cubeb_device_collection :=
  [ mk_device (Some 1%nat) (Some "hw:0"%string) (Some "Built-in Mic"%string);
    mk_device (Some 2%nat) (Some "hw:1"%string) None ].

(** Grants what is requested and leaves the parameter struct untouched. *)
Definition be_plain : backend :=
  {| cubeb_init := (0, Some 0%nat);
     cubeb_enumerate_devices := (0, two_devices);
     cubeb_stream_init := fun _ _ p _ => (0, Some 7%nat, p);
     cubeb_stream_start := 0;
     cubeb_stream_stop := 0 |}.

(** Writes 44.1 kHz mono back into the parameter struct. *)
Definition be_negotiating : backend :=
  {| cubeb_init := (0, Some 0%nat);
     cubeb_enumerate_devices := (0, two_devices);
     cubeb_stream_init := fun _ _ p _ =>
       (0, Some 7%nat,
        mk_params (Cubeb.format p) 44100 1 (layout p) (prefs p));
     cubeb_stream_start := 0;
     cubeb_stream_stop := 0 |}.

(** Creates the stream but refuses to start it. *)
Definition be_start_rejected : backend :=
  {| cubeb_init := (0, Some 0%nat);
     cubeb_enumerate_devices := (0, two_devices);
     cubeb_stream_init := fun _ _ p _ => (0, Some 8%nat, p);
     cubeb_stream_start := -1;
     cubeb_stream_stop := 0 |}.

(** Refuses to create a stream. *)
Definition be_creation_rejected : backend :=
  {| cubeb_init := (0, Some 0%nat);
     cubeb_enumerate_devices := (0, two_devices);
     cubeb_stream_init := fun stm _ p _ => (-1, stm, p);
     cubeb_stream_start := 0;
     cubeb_stream_stop := 0 |}.

(** Reports an error when asked to stop. *)
Definition be_stop_error : backend :=
  {| cubeb_init := (0, Some 0%nat);
     cubeb_enumerate_devices := (0, two_devices);
     cubeb_stream_init := fun _ _ p _ => (0, Some 7%nat, p);
     cubeb_stream_start := 0;
     cubeb_stream_stop := -1 |}.

(** No audio backend at all. *)
Definition be_unavailable : backend :=
  {| cubeb_init := (-1, None);
     cubeb_enumerate_devices := (-1, []);
     cubeb_stream_init := fun stm _ p _ => (-1, stm, p);
     cubeb_stream_start := -1;
     cubeb_stream_stop := -1 |}.

Definition enc_plain : DrWav.encoder :=
  {| DrWav.drwav_init_file_write := fun _ _ => true;
     DrWav.drwav_write_pcm_frames := fun frames _ => frames |}.

(** The handle [be_plain] constructs. *)
Definition fresh_handle : AudioCapture :=
  {| context := Some 0%nat; stream := None; inputDeviceId := Some 1%nat;
     callback := Some 0%nat; capturing := false; shouldStop := false;
     sampleRate := 0; channelCount := 0;
     currentDeviceName := "Built-in Mic";
     inputDeviceIndex := 0; initialized := true; recordedAudio := [];
     outputFile := "captured-audio.wav" |}.

(** [fresh_handle] once a 48 kHz stereo capture runs on it. *)
Definition capturing_handle : AudioCapture :=
  {| context := Some 0%nat; stream := Some 7%nat; inputDeviceId := Some 1%nat;
     callback := Some 0%nat; capturing := true; shouldStop := false;
     sampleRate := 48000; channelCount := 2;
     currentDeviceName := "Built-in Mic";
     inputDeviceIndex := 0; initialized := true; recordedAudio := [];
     outputFile := "captured-audio.wav" |}.

(** [1.0f], [0.5f], [-2.0f] and [0.1f] in memory. *)
Definition f_one : float := mk_float x00 x00 x80 x3f.
Definition f_half : float := mk_float x00 x00 x00 x3f.
Definition f_minus_two : float := mk_float x00 x00 x00 xc0.
Definition f_tenth : float := mk_float xcd xcc xcc x3d.

(** Two stereo buffers of two frames each. *)
Definition two_buffers : list (list float) :=
  [ [f_one; f_half; f_minus_two; f_tenth]; [f_tenth; f_tenth; f_one; f_one] ].

(** A handle that holds the recording of a finished 44.1 kHz mono session. *)
Definition recorded_handle : AudioCapture :=
  {| context := Some 0%nat; stream := Some 7%nat; inputDeviceId := Some 1%nat;
     callback := Some 0%nat; capturing := false; shouldStop := true;
     sampleRate := 44100; channelCount := 1;
     currentDeviceName := "Built-in Mic";
     inputDeviceIndex := 0; initialized := true;
     recordedAudio := chars_of_floats [f_one; f_half];
     outputFile := "captured-audio.wav" |}.

(** The clamp of the conversion loop, [std::max(-1.0f, std::min(1.0f, v))]. *)
Definition clamp_code (v : spec_float) : spec_float :=
  Float32.std_max Float32.lit_m1_0f (Float32.std_min Float32.lit_1_0f v).

(** A finite number of mantissa [m] and exponent [e] lies strictly inside
    the unit interval, in magnitude: this is what the comparisons against
    [1.0f] and [-1.0f] decide on the canonical representation. *)
Definition inside (m : positive) (e : Z) : bool :=
  match e ?= -23 with
  | Lt => true | Gt => false
  | Eq => match Pos.compare_cont Eq m 8388608 with Lt => true | _ => false end
  end.

(** A sequence with redundant starts and stops. *)
Definition redundant_calls : list lifecycle_call :=
  [ Stop be_plain; Start be_plain (-1); Start be_plain 1; Stop be_stop_error;
    Stop be_plain; Start be_start_rejected 0; Start be_negotiating 1;
    Start be_plain (-1) ].

(** Control-plane calls issued after a failed initialisation. *)
Definition calls_after_failed_init : list api_call :=
  [ Call_getAvailableInputDevices be_plain; Call_startCapture be_plain (-1);
    Call_setInputDevice be_plain 1; Call_startCapture be_plain 0;
    Call_stopCapture be_plain; Call_saveRecordedAudio enc_plain;
    Call_getAvailableInputDevices be_plain ].

(** ** Destruction and moves *)

(** [AudioCapture::~AudioCapture] *)
Definition AudioCapture_dtor (be : backend) : M unit :=
  stopCapture be ;;; cleanup.

(** What a moved-from [std::function], [std::string] or assigned-from
    [std::vector] holds is valid but unspecified. *)
Record moved_from := mk_moved_from {
  mf_callback : AudioDataCallback;
  mf_currentDeviceName : string;
  mf_recordedAudio : list byte;
  mf_outputFile : string
}.

(** [other] as a move leaves it: the members moved out hold unspecified
    values, the three handles are reset and [initialized] is cleared; the
    two flags and the two counters are only read. *)
Definition moved_out (mf : moved_from) (rec : list byte) (other : AudioCapture)
  : AudioCapture :=
  {| context := None; stream := None; inputDeviceId := None;
     callback := mf_callback mf;
     capturing := capturing other; shouldStop := shouldStop other;
     sampleRate := sampleRate other; channelCount := channelCount other;
     currentDeviceName := mf_currentDeviceName mf;
     inputDeviceIndex := inputDeviceIndex other;
     initialized := false;
     recordedAudio := rec;
     outputFile := mf_outputFile mf |}.

(** [AudioCapture::AudioCapture(AudioCapture &&other)]: the new object and
    [other] afterwards.  A [std::vector] that was move-constructed from is
    empty. *)
Definition AudioCapture_move_ctor (mf : moved_from) (other : AudioCapture)
  : AudioCapture * AudioCapture :=
  ({| context := context other; stream := stream other;
      inputDeviceId := inputDeviceId other; callback := callback other;
      capturing := capturing other; shouldStop := shouldStop other;
      sampleRate := sampleRate other; channelCount := channelCount other;
      currentDeviceName := currentDeviceName other;
      inputDeviceIndex := inputDeviceIndex other;
      initialized := initialized other;
      recordedAudio := recordedAudio other;
      outputFile := outputFile other |},
   moved_out mf [] other).

(** [AudioCapture::operator=(AudioCapture &&other)] for [this != &other]:
    runs on [this] and returns [other] as it is left. *)
Definition AudioCapture_move_assign (be : backend) (mf : moved_from)
    (other : AudioCapture) : M AudioCapture :=
  stopCapture be ;;;
  cleanup ;;;
  store (set_context (context other)) ;;;
  store (set_stream (stream other)) ;;;
  store (set_inputDeviceId (inputDeviceId other)) ;;;
  store (set_callback (callback other)) ;;;
  store (set_capturing (capturing other)) ;;;
  store (set_shouldStop (shouldStop other)) ;;;
  store (set_sampleRate (sampleRate other)) ;;;
  store (set_channelCount (channelCount other)) ;;;
  store (set_currentDeviceName (currentDeviceName other)) ;;;
  store (set_inputDeviceIndex (inputDeviceIndex other)) ;;;
  store (set_initialized (initialized other)) ;;;
  store (set_recordedAudio (recordedAudio other)) ;;;
  store (set_outputFile (outputFile other)) ;;;
  ret (moved_out mf (mf_recordedAudio mf) other).

(** ** Vocabulary of the further properties *)

(** The name the code takes from a device: the friendly name, else the
    device identifier. *)
Definition device_name (d : cubeb_device_info) : option string :=
  match friendly_name d, device_id d with
  | Some name, _ => Some name
  | None, Some name => Some name
  | None, None => None
  end.

Definition is_stream_destroy (e : event) : bool :=
  match e with E_cubeb_stream_destroy _ => true | _ => false end.

Definition is_enumerate (e : event) : bool :=
  match e with E_cubeb_enumerate_devices _ => true | _ => false end.

Definition is_collection_destroy (e : event) : bool :=
  match e with E_cubeb_device_collection_destroy _ => true | _ => false end.

Definition is_context_destroy (e : event) : bool :=
  match e with E_cubeb_destroy _ => true | _ => false end.

Definition count (f : event -> bool) (t : list event) : nat :=
  List.length (filter f t).

(** A handle with a device list of three, the second without a friendly
    name. *)
Definition three_devices : cubeb_device_collection :=
  [ mk_device (Some 1%nat) (Some "hw:0"%string) (Some "Built-in Mic"%string);
    mk_device (Some 2%nat) (Some "hw:1"%string) None;
    mk_device (Some 3%nat) (Some "hw:2"%string) (Some "USB Mic"%string) ].

Definition be_three : backend :=
  {| cubeb_init := (0, Some 0%nat);
     cubeb_enumerate_devices := (0, three_devices);
     cubeb_stream_init := fun _ _ p _ => (0, Some 9%nat, p);
     cubeb_stream_start := 0;
     cubeb_stream_stop := 0 |}.

Definition no_moved_from : moved_from :=
  {| mf_callback := None; mf_currentDeviceName := EmptyString;
     mf_recordedAudio := []; mf_outputFile := EmptyString |}.

(** The collection of an enumeration is released exactly when the
    enumeration succeeded. *)
Definition released_once (be : backend) (t : list event) : Prop :=
  (count is_enumerate t <= 1)%nat /\
  count is_collection_destroy t
  = if fst (cubeb_enumerate_devices be) =? CUBEB_OK then count is_enumerate t
    else 0%nat.

(* ================================================================== *)
(** * Part 2: properties                                               *)
(* ================================================================== *)

Ltac unfold_m := unfold bind, ret, load, store, emit, undefined in *.

(** ** Integer conversions *)

Lemma to_int_small x : INT_MIN <= x <= INT_MAX -> to_int x = x.
Proof.
  unfold to_int, INT_MIN, INT_MAX. intros H.
  rewrite Z.mod_small; lia.
Qed.

Lemma to_int_le x : 0 <= x -> to_int x <= x.
Proof.
  unfold to_int. intros H.
  assert (Hm : (x + 2 ^ 31) mod 2 ^ 32 <= x + 2 ^ 31) by (apply Z.mod_le; lia).
  lia.
Qed.

Lemma to_size_t_small x : 0 <= x < 2 ^ 64 -> to_size_t x = x.
Proof. unfold to_size_t. intros H. apply Z.mod_small; lia. Qed.

(** ** The member functions, path by path *)

Lemma stopCapture_eq be this :
  stopCapture be this =
  Some (true,
        (if capturing this then set_capturing false (set_shouldStop true this)
         else this),
        (if capturing this then
           match stream this with
           | Some _ => [E_cubeb_stream_stop (stream this)]
           | None => []
           end
         else [])).
Proof.
  unfold stopCapture. unfold_m. simpl.
  destruct (capturing this); simpl; [ | reflexivity ].
  destruct (stream this); simpl; [ | reflexivity ].
  destruct (negb (cubeb_stream_stop be =? CUBEB_OK)); reflexivity.
Qed.

Lemma setInputDevice_eq be i this :
  setInputDevice be i this =
  if negb (initialized this) || is_null (context this) then Some (false, this, [])
  else if capturing this then Some (false, this, [])
  else
    let e_enum := E_cubeb_enumerate_devices (context this) in
    let e_free := E_cubeb_device_collection_destroy (context this) in
    let '(r, collection) := cubeb_enumerate_devices be in
    if negb (r =? CUBEB_OK) then Some (false, this, [e_enum])
    else if (i <? 0) || (to_int (Z.of_nat (List.length collection)) <=? i)
    then Some (false, this, [e_enum; e_free])
    else
      match nth_error collection (Z.to_nat i) with
      | None => None
      | Some device =>
          let this1 := set_inputDeviceIndex i (set_inputDeviceId (devid device) this) in
          match friendly_name device, device_id device with
          | Some name, _ | None, Some name =>
              Some (true, set_currentDeviceName name this1, [e_enum; e_free])
          | None, None => None
          end
      end.
Proof.
  unfold setInputDevice. unfold_m. simpl.
  destruct (negb (initialized this) || is_null (context this)); [ reflexivity | ].
  destruct (capturing this); [ reflexivity | ].
  destruct (cubeb_enumerate_devices be) as [r collection]; simpl.
  destruct (negb (r =? CUBEB_OK)); [ reflexivity | ].
  destruct ((i <? 0) || (to_int (Z.of_nat (List.length collection)) <=? i));
    [ reflexivity | ].
  destruct (nth_error collection (Z.to_nat i)) as [device | ]; [ | reflexivity ].
  destruct (friendly_name device), (device_id device); reflexivity.
Qed.

Lemma startCapture_eq be i this :
  startCapture be i this =
  if negb (initialized this) then Some (false, this, []) else
  if capturing this then Some (false, this, []) else
  match (if 0 <=? i then setInputDevice be i this else Some (true, this, [])) with
  | None => None
  | Some (device_ok, this1, t1) =>
      if negb device_ok then Some (false, this1, t1) else
      if is_null (inputDeviceId this1) then Some (false, this1, t1) else
      let e_init := E_cubeb_stream_init (context this1) (inputDeviceId this1)
                      requested_params 4096 in
      let '(r, stm, p) :=
        cubeb_stream_init be (stream this1) (inputDeviceId this1)
          requested_params 4096 in
      if negb (r =? CUBEB_OK) then
        Some (false, set_stream stm this1, t1 ++ [e_init])
      else
        let this2 :=
          set_recordedAudio []
            (set_channelCount (to_int (Cubeb.channels p))
               (set_sampleRate (to_int (rate p)) (set_stream stm this1))) in
        if negb (cubeb_stream_start be =? CUBEB_OK) then
          Some (false, set_stream None this2,
                t1 ++ [e_init; E_cubeb_stream_get_latency stm;
                       E_cubeb_stream_start stm; E_cubeb_stream_destroy stm])
        else
          Some (true, set_capturing true (set_shouldStop false this2),
                t1 ++ [e_init; E_cubeb_stream_get_latency stm;
                       E_cubeb_stream_start stm])
  end.
Proof.
  unfold startCapture, requested_params. unfold_m. simpl.
  destruct (negb (initialized this)); [ reflexivity | ].
  destruct (capturing this); [ reflexivity | ].
  destruct (0 <=? i);
    [ destruct (setInputDevice be i this) as [[[ok this1] t1] | ] | ]; simpl;
    try reflexivity.
  - destruct ok; simpl; [ | rewrite app_nil_r; reflexivity ].
    destruct (inputDeviceId this1) as [d | ]; simpl;
      [ | rewrite app_nil_r; reflexivity ].
    destruct (cubeb_stream_init be (stream this1) (Some d) _ 4096)
      as [[r stm] p]; simpl.
    destruct (r =? CUBEB_OK); simpl; [ | reflexivity ].
    destruct (cubeb_stream_start be =? CUBEB_OK); simpl; reflexivity.
  - destruct (inputDeviceId this) as [d | ]; simpl; [ | reflexivity ].
    destruct (cubeb_stream_init be (stream this) (Some d) _ 4096)
      as [[r stm] p]; simpl.
    destruct (r =? CUBEB_OK); simpl; [ | reflexivity ].
    destruct (cubeb_stream_start be =? CUBEB_OK); simpl; reflexivity.
Qed.

Lemma initializeCubeb_eq be this :
  initializeCubeb be this =
  let '(r0, ctx) := cubeb_init be in
  let this0 := set_context ctx this in
  if negb (r0 =? CUBEB_OK) then Some (false, this0, [E_cubeb_init]) else
  let '(r1, collection) := cubeb_enumerate_devices be in
  if negb (r1 =? CUBEB_OK) then
    Some (false, set_context None this0,
          [E_cubeb_init; E_cubeb_enumerate_devices ctx; E_cubeb_destroy ctx])
  else
    match collection with
    | [] =>
        Some (false, set_context None this0,
              [E_cubeb_init; E_cubeb_enumerate_devices ctx;
               E_cubeb_device_collection_destroy ctx; E_cubeb_destroy ctx])
    | device0 :: _ =>
        Some (true,
              set_initialized true
                (set_inputDeviceIndex 0
                   (set_currentDeviceName
                      match friendly_name device0 with
                      | Some name => name
                      | None => "Unknown Device"%string
                      end
                      (set_inputDeviceId (devid device0) this0))),
              [E_cubeb_init; E_cubeb_enumerate_devices ctx;
               E_cubeb_device_collection_destroy ctx])
    end.
Proof.
  unfold initializeCubeb. unfold_m. simpl.
  destruct (cubeb_init be) as [r0 ctx]; simpl.
  destruct (negb (r0 =? CUBEB_OK)); simpl; [ reflexivity | ].
  destruct (cubeb_enumerate_devices be) as [r1 collection]; simpl.
  destruct (negb (r1 =? CUBEB_OK)); simpl; [ reflexivity | ].
  destruct collection; reflexivity.
Qed.

Lemma getAvailableInputDevices_eq be this :
  getAvailableInputDevices be this =
  if negb (initialized this) || is_null (context this) then Some ([], this, [])
  else
    let '(r, collection) := cubeb_enumerate_devices be in
    if negb (r =? CUBEB_OK) then
      Some ([], this, [E_cubeb_enumerate_devices (context this)])
    else
      Some (device_names collection, this,
            [E_cubeb_enumerate_devices (context this);
             E_cubeb_device_collection_destroy (context this)]).
Proof.
  unfold getAvailableInputDevices. unfold_m. simpl.
  destruct (negb (initialized this) || is_null (context this)); [ reflexivity | ].
  destruct (cubeb_enumerate_devices be) as [r collection]; simpl.
  destruct (negb (r =? CUBEB_OK)); reflexivity.
Qed.

(** Device selection touches neither the session nor the stream. *)
Lemma setInputDevice_frame be i this r this' t :
  setInputDevice be i this = Some (r, this', t) ->
  same_session this this' /\ stream this' = stream this /\
  context this' = context this /\ initialized this' = initialized this /\
  ~ creates_stream t.
Proof.
  rewrite setInputDevice_eq. unfold same_session, creates_stream.
  destruct (negb (initialized this) || is_null (context this)).
  { intros H; inversion H; subst. repeat split; auto.
    intros (? & ? & ? & ? & []). }
  destruct (capturing this) eqn:Hcap.
  { intros H; inversion H; subst. repeat split; auto.
    intros (? & ? & ? & ? & []). }
  destruct (cubeb_enumerate_devices be) as [r0 collection]; simpl.
  assert (Hev : forall l : list event,
             (forall e, In e l ->
                e = E_cubeb_enumerate_devices (context this) \/
                e = E_cubeb_device_collection_destroy (context this)) ->
             ~ (exists ctx dev p n, In (E_cubeb_stream_init ctx dev p n) l)).
  { intros l Hl (? & ? & ? & ? & HIn). apply Hl in HIn.
    destruct HIn; discriminate. }
  destruct (negb (r0 =? CUBEB_OK)).
  { intros H; inversion H; subst. repeat split; auto.
    apply Hev. simpl. intuition. }
  destruct ((i <? 0) || (to_int (Z.of_nat (List.length collection)) <=? i)).
  { intros H; inversion H; subst. repeat split; auto.
    apply Hev. simpl. intuition. }
  destruct (nth_error collection (Z.to_nat i)) as [device | ]; [ | discriminate ].
  destruct (friendly_name device), (device_id device);
    try discriminate; intros H; inversion H; subst;
    repeat split; auto; apply Hev; simpl; intuition.
Qed.

(** Device selection runs into undefined behaviour only on a device that
    carries no name at all. *)
Lemma setInputDevice_defined be i this :
  forallb named (snd (cubeb_enumerate_devices be)) = true ->
  setInputDevice be i this <> None.
Proof.
  intros Hnamed. rewrite setInputDevice_eq.
  destruct (negb (initialized this) || is_null (context this)); [ discriminate | ].
  destruct (capturing this); [ discriminate | ].
  destruct (cubeb_enumerate_devices be) as [r collection]; simpl in *.
  destruct (negb (r =? CUBEB_OK)); [ discriminate | ].
  destruct ((i <? 0) || (to_int (Z.of_nat (List.length collection)) <=? i)) eqn:Hrange;
    [ discriminate | ].
  apply orb_false_iff in Hrange. destruct Hrange as [Hlo Hhi].
  apply Z.ltb_ge in Hlo. apply Z.leb_gt in Hhi.
  assert (Hlen : (Z.to_nat i < List.length collection)%nat).
  { pose proof (to_int_le (Z.of_nat (List.length collection))). lia. }
  destruct (nth_error collection (Z.to_nat i)) as [device | ] eqn:Hnth.
  - apply nth_error_In in Hnth.
    rewrite forallb_forall in Hnamed. apply Hnamed in Hnth.
    unfold named in Hnth.
    destruct (friendly_name device), (device_id device);
      simpl in Hnth; discriminate.
  - apply nth_error_None in Hnth. lia.
Qed.

(** The four ways out of [startCapture]: rejected before stream creation,
    stream creation rejected, stream start rejected, started. *)
Lemma startCapture_cases be i this r this' t :
  startCapture be i this = Some (r, this', t) ->
  let reply := stream_init_reply be this this' in
  let e_init := E_cubeb_stream_init (context this) (inputDeviceId this')
                  requested_params 4096 in
  (r = false /\ ~ creates_stream t /\ same_session this this' /\
   stream this' = stream this)
  \/
  (r = false /\ fst (fst reply) <> CUBEB_OK /\ In e_init t /\
   same_session this this' /\ stream this' = snd (fst reply) /\
   capturing this = false)
  \/
  (r = false /\ fst (fst reply) = CUBEB_OK /\ cubeb_stream_start be <> CUBEB_OK /\
   In e_init t /\ In (E_cubeb_stream_destroy (snd (fst reply))) t /\
   stream this' = None /\ capturing this' = false /\
   sampleRate this' = to_int (rate (snd reply)) /\
   channelCount this' = to_int (Cubeb.channels (snd reply)) /\
   recordedAudio this' = [])
  \/
  (r = true /\ fst (fst reply) = CUBEB_OK /\ cubeb_stream_start be = CUBEB_OK /\
   In e_init t /\
   stream this' = snd (fst reply) /\ capturing this' = true /\
   sampleRate this' = to_int (rate (snd reply)) /\
   channelCount this' = to_int (Cubeb.channels (snd reply)) /\
   recordedAudio this' = []).
Proof.
  unfold stream_init_reply. rewrite startCapture_eq. intros H.
  assert (Hnil : ~ creates_stream []) by (intros (? & ? & ? & ? & [])).
  destruct (initialized this) eqn:Hini; simpl in H;
    [ | inversion H; subst; left; repeat split; auto ].
  destruct (capturing this) eqn:Hcap; simpl in H;
    [ inversion H; subst; left; repeat split; auto | ].
  destruct (if 0 <=? i then setInputDevice be i this else Some (true, this, []))
    as [[[ok this1] t1] | ] eqn:Hsel; [ | discriminate H ].
  assert (Hframe : same_session this this1 /\ stream this1 = stream this /\
                   context this1 = context this /\ ~ creates_stream t1).
  { destruct (0 <=? i).
    - apply setInputDevice_frame in Hsel. tauto.
    - inversion Hsel; subst. repeat split; auto. }
  destruct Hframe as (Hsame & Hstm & Hctx & Hnot).
  destruct ok; simpl in H;
    [ | inversion H; subst; left; repeat split; auto; apply Hsame ].
  destruct (inputDeviceId this1) as [d | ] eqn:Hdev; simpl in H;
    [ | inversion H; subst; left; repeat split; auto; apply Hsame ].
  rewrite Hstm, Hctx in H.
  destruct (cubeb_stream_init be (stream this) (Some d) requested_params 4096)
    as [[r0 stm] p] eqn:Hinit; simpl in H.
  destruct Hsame as (Hs1 & Hs2 & Hs3 & Hs4).
  destruct (r0 =? CUBEB_OK) eqn:Hr0; simpl in H.
  - apply Z.eqb_eq in Hr0.
    destruct (cubeb_stream_start be =? CUBEB_OK) eqn:Hst; simpl in H;
      inversion H; subst; clear H; simpl; rewrite Hdev, Hinit; simpl.
    + apply Z.eqb_eq in Hst. right; right; right.
      repeat split; auto. apply in_or_app; right; simpl; auto.
    + apply Z.eqb_neq in Hst. right; right; left.
      repeat split; auto; try congruence;
        apply in_or_app; right; simpl; auto 10.
  - apply Z.eqb_neq in Hr0.
    inversion H; subst; clear H; simpl; rewrite Hdev, Hinit; simpl.
    right; left. repeat split; auto.
    apply in_or_app; right; simpl; auto.
Qed.

Lemma startCapture_defined be i this :
  forallb named (snd (cubeb_enumerate_devices be)) = true ->
  startCapture be i this <> None.
Proof.
  intros Hnamed. rewrite startCapture_eq.
  destruct (negb (initialized this)); [ discriminate | ].
  destruct (capturing this); [ discriminate | ].
  pose proof (setInputDevice_defined be i this Hnamed) as Hdef.
  destruct (0 <=? i).
  - destruct (setInputDevice be i this) as [[[ok this1] t1] | ]; [ | tauto ].
    destruct (negb ok); [ discriminate | ].
    destruct (is_null (inputDeviceId this1)); [ discriminate | ].
    destruct (cubeb_stream_init be _ _ _ _) as [[r stm] p].
    destruct (negb (r =? CUBEB_OK)); [ discriminate | ].
    destruct (negb (cubeb_stream_start be =? CUBEB_OK)); discriminate.
  - destruct (negb true); [ discriminate | ].
    destruct (is_null (inputDeviceId this)); [ discriminate | ].
    destruct (cubeb_stream_init be _ _ _ _) as [[r stm] p].
    destruct (negb (r =? CUBEB_OK)); [ discriminate | ].
    destruct (negb (cubeb_stream_start be =? CUBEB_OK)); discriminate.
Qed.

(** ** Lifecycle *)

(** C4: [stopCapture] is valid from any state.  When the handle is not
    capturing it returns success and leaves the object unchanged, without
    calling the backend.  When it is capturing it returns success and the
    handle is no longer capturing, whatever status the backend stop call
    reports; the only other change is the stop flag. *)
Theorem stopCapture_valid_from_any_state (be : backend) (this : AudioCapture) :
  (isCapturing this = false -> stopCapture be this = Some (true, this, [])) /\
  (isCapturing this = true ->
   exists this' t,
     stopCapture be this = Some (true, this', t) /\
     isCapturing this' = false /\
     this' = set_capturing false (set_shouldStop true this) /\
     t = match stream this with
         | Some _ => [E_cubeb_stream_stop (stream this)]
         | None => []
         end).
Proof.
  rewrite stopCapture_eq. unfold isCapturing.
  split; intros Hc; rewrite Hc.
  - reflexivity.
  - eexists; eexists. repeat split.
Qed.

Lemma stopCapture_valid_from_any_state_witness :
  stopCapture be_stop_error fresh_handle = Some (true, fresh_handle, []) /\
  exists this' t,
    stopCapture be_stop_error capturing_handle = Some (true, this', t) /\
    isCapturing this' = false.
Proof.
  split.
  - apply (proj1 (stopCapture_valid_from_any_state be_stop_error fresh_handle)).
    reflexivity.
  - destruct (proj2 (stopCapture_valid_from_any_state be_stop_error capturing_handle)
                eq_refl) as (this' & t & Hrun & Hcap & _).
    exists this', t. split; assumption.
Defined.

(** Stopping twice is stopping once. *)
Lemma stopCapture_idempotent be1 be2 this this' t :
  stopCapture be1 this = Some (true, this', t) ->
  stopCapture be2 this' = Some (true, this', []).
Proof.
  rewrite !stopCapture_eq. intros H. inversion H; subst; clear H.
  destruct (capturing this) eqn:Hc; cbn; [ reflexivity | ].
  rewrite Hc. reflexivity.
Qed.

Lemma run_lifecycle_post this cs : Forall lifecycle_post (run_lifecycle this cs).
Proof.
  revert this. induction cs as [ | c cs IH]; intros this; simpl.
  - constructor.
  - destruct (lifecycle_step c this) as [[[r this'] t] | ] eqn:Hstep;
      [ | constructor ].
    constructor; [ | apply IH ].
    destruct c as [be i | be]; simpl in *.
    + intros ->. unfold isCapturing.
      destruct (startCapture_cases _ _ _ _ _ _ Hstep)
        as [H | [H | [H | H]]]; try (destruct H as [H _]; discriminate H).
      tauto.
    + rewrite stopCapture_eq in Hstep. inversion Hstep; subst.
      split; [ reflexivity | ].
      unfold isCapturing. destruct (capturing this) eqn:Hc; [ reflexivity | exact Hc ].
Qed.

Lemma run_lifecycle_complete this cs :
  forallb lifecycle_named cs = true ->
  map (fun x => fst (fst x)) (run_lifecycle this cs) = cs.
Proof.
  revert this. induction cs as [ | c cs IH]; intros this Hn; simpl in *.
  - reflexivity.
  - apply andb_true_iff in Hn. destruct Hn as [Hc Hcs].
    destruct (lifecycle_step c this) as [[[r this'] t] | ] eqn:Hstep.
    + simpl. f_equal. apply IH, Hcs.
    + exfalso. destruct c as [be i | be]; simpl in *.
      * exact (startCapture_defined be i this Hc Hstep).
      * rewrite stopCapture_eq in Hstep. discriminate Hstep.
Qed.

(** C1: along every sequence of [startCapture] / [stopCapture] calls on one
    handle, every [stopCapture] returns with [isCapturing] false and every
    [startCapture] that returns true returns with [isCapturing] true,
    whatever calls came before; and as long as the backend names its
    devices every call of the sequence returns. *)
Theorem lifecycle_isCapturing (this : AudioCapture) (cs : list lifecycle_call) :
  Forall lifecycle_post (run_lifecycle this cs) /\
  (forallb lifecycle_named cs = true ->
   map (fun x => fst (fst x)) (run_lifecycle this cs) = cs).
Proof.
  split; [ apply run_lifecycle_post | apply run_lifecycle_complete ].
Qed.

Lemma lifecycle_isCapturing_witness :
  forallb lifecycle_named redundant_calls = true /\
  map (fun x => fst (fst x)) (run_lifecycle fresh_handle redundant_calls)
  = redundant_calls /\
  Forall lifecycle_post (run_lifecycle fresh_handle redundant_calls).
Proof.
  split; [ reflexivity | ].
  split.
  - apply (proj2 (lifecycle_isCapturing fresh_handle redundant_calls)).
    reflexivity.
  - apply (proj1 (lifecycle_isCapturing fresh_handle redundant_calls)).
Defined.

(** The return values and [isCapturing] along [redundant_calls]. *)
Example redundant_calls_trace :
  map (fun x => (snd (fst x), isCapturing (snd x)))
      (run_lifecycle fresh_handle redundant_calls)
  = [ (true, false); (true, true); (false, true); (true, false);
      (true, false); (false, false); (true, true); (false, true) ].
Proof. vm_compute. reflexivity. Qed.

(** ** Start failures *)

(** C5, as stated, fails: on a handle that holds a 44.1 kHz mono recording,
    a [startCapture] whose stream is created but refuses to start returns
    false with the recording gone and the stored sample rate and channel
    count overwritten. *)
Lemma startCapture_start_rejected_changes_state :
  exists this' t,
    startCapture be_start_rejected (-1) recorded_handle = Some (false, this', t) /\
    recordedAudio recorded_handle <> recordedAudio this' /\
    getSampleRate recorded_handle = 44100 /\ getSampleRate this' = 48000 /\
    getChannelCount recorded_handle = 1 /\ getChannelCount this' = 2.
Proof.
  eexists; eexists. split; [ vm_compute; reflexivity | ].
  simpl. repeat split; discriminate.
Qed.

(** C5, amended: a [startCapture] that fails after attempting stream
    creation returns with the handle not capturing.  When the creation was
    rejected, the capturing flag, sample rate, channel count and recording
    are as before the call and the stream pointer is what the backend left.
    When the creation succeeded and the start was rejected, the created
    stream is destroyed and the stream pointer reset, while the sample rate
    and channel count hold the values read back after creation and the
    recording is empty. *)
Theorem startCapture_backend_failure
    (be : backend) (i : Z) (this this' : AudioCapture) (t : list event) :
  startCapture be i this = Some (false, this', t) ->
  creates_stream t ->
  let reply := stream_init_reply be this this' in
  isCapturing this' = false /\
  ((fst (fst reply) <> CUBEB_OK /\
    same_session this this' /\
    stream this' = snd (fst reply))
   \/
   (fst (fst reply) = CUBEB_OK /\ cubeb_stream_start be <> CUBEB_OK /\
    In (E_cubeb_stream_destroy (snd (fst reply))) t /\
    stream this' = None /\
    getSampleRate this' = to_int (rate (snd reply)) /\
    getChannelCount this' = to_int (Cubeb.channels (snd reply)) /\
    recordedAudio this' = [])).
Proof.
  intros Hrun Hcreate. cbv zeta. unfold isCapturing, getSampleRate, getChannelCount.
  destruct (startCapture_cases _ _ _ _ _ _ Hrun) as [H | [H | [H | H]]].
  - exfalso. tauto.
  - destruct H as (_ & Hr & _ & Hsame & Hstm & Hcap).
    split; [ destruct Hsame as (<- & _); exact Hcap | ].
    left. auto.
  - destruct H as (_ & Hr & Hst & _ & Hd & Hstm & Hcap & Hsr & Hcc & Hrec).
    split; [ exact Hcap | ]. right. repeat split; assumption.
  - destruct H as [H _]. discriminate H.
Qed.

Lemma startCapture_backend_failure_witness :
  exists this' t,
    startCapture be_start_rejected (-1) recorded_handle = Some (false, this', t) /\
    creates_stream t /\
    isCapturing this' = false /\
    stream this' = None /\
    In (E_cubeb_stream_destroy (Some 8%nat)) t.
Proof.
  assert (Hrun : startCapture be_start_rejected (-1) recorded_handle
                 = Some (false,
                         set_stream None
                           (set_recordedAudio []
                              (set_channelCount 2
                                 (set_sampleRate 48000
                                    (set_stream (Some 8%nat) recorded_handle)))),
                         [E_cubeb_stream_init (Some 0%nat) (Some 1%nat)
                            requested_params 4096;
                          E_cubeb_stream_get_latency (Some 8%nat);
                          E_cubeb_stream_start (Some 8%nat);
                          E_cubeb_stream_destroy (Some 8%nat)]))
    by (vm_compute; reflexivity).
  assert (Hcreate : creates_stream
                      [E_cubeb_stream_init (Some 0%nat) (Some 1%nat)
                         requested_params 4096;
                       E_cubeb_stream_get_latency (Some 8%nat);
                       E_cubeb_stream_start (Some 8%nat);
                       E_cubeb_stream_destroy (Some 8%nat)]).
  { exists (Some 0%nat), (Some 1%nat), requested_params, 4096. left. reflexivity. }
  pose proof (startCapture_backend_failure _ _ _ _ _ Hrun Hcreate) as [Hcap _].
  eexists; eexists.
  split; [ exact Hrun | ].
  split; [ exact Hcreate | ].
  split; [ exact Hcap | ].
  split; [ reflexivity | ].
  simpl. auto.
Defined.

(** The same call when the creation itself is rejected. *)
Example startCapture_creation_rejected_keeps_recording :
  exists t,
    startCapture be_creation_rejected (-1) recorded_handle
    = Some (false, recorded_handle, t).
Proof. eexists. vm_compute. reflexivity. Qed.

(** ** Stored stream parameters *)

(** C6: after a successful [startCapture] the stream creation has been
    attempted with the requested parameter struct, and [getSampleRate] and
    [getChannelCount] return the rate and channel count found in that
    struct after the creation call returned, converted to [int]: what the
    backend left there, not the constants the request was filled with.  A
    backend that writes 44.1 kHz mono back makes them 44100 and 1. *)
Theorem startCapture_stores_read_back_parameters :
  (forall (be : backend) (i : Z) (this this' : AudioCapture) (t : list event),
      startCapture be i this = Some (true, this', t) ->
      let reply := stream_init_reply be this this' in
      In (E_cubeb_stream_init (context this) (inputDeviceId this')
            requested_params 4096) t /\
      fst (fst reply) = CUBEB_OK /\
      stream this' = snd (fst reply) /\
      getSampleRate this' = to_int (rate (snd reply)) /\
      getChannelCount this' = to_int (Cubeb.channels (snd reply))) /\
  (exists this' t,
      startCapture be_negotiating (-1) fresh_handle = Some (true, this', t) /\
      getSampleRate this' = 44100 /\ getChannelCount this' = 1).
Proof.
  split.
  - intros be i this this' t Hrun. cbv zeta.
    unfold getSampleRate, getChannelCount.
    destruct (startCapture_cases _ _ _ _ _ _ Hrun) as [H | [H | [H | H]]];
      try (destruct H as [H _]; discriminate H).
    tauto.
  - eexists; eexists. split; [ vm_compute; reflexivity | ].
    split; reflexivity.
Qed.

Lemma startCapture_stores_read_back_parameters_witness :
  exists this' t,
    startCapture be_plain 1 fresh_handle = Some (true, this', t) /\
    getSampleRate this' = 48000 /\ getChannelCount this' = 2.
Proof.
  assert (Hrun : startCapture be_plain 1 fresh_handle
                 = Some (true,
                         set_capturing true
                           (set_channelCount 2
                              (set_sampleRate 48000
                                 (set_stream (Some 7%nat)
                                    (set_currentDeviceName "hw:1"
                                       (set_inputDeviceIndex 1
                                          (set_inputDeviceId (Some 2%nat)
                                             fresh_handle)))))),
                         [E_cubeb_enumerate_devices (Some 0%nat);
                          E_cubeb_device_collection_destroy (Some 0%nat);
                          E_cubeb_stream_init (Some 0%nat) (Some 2%nat)
                            requested_params 4096;
                          E_cubeb_stream_get_latency (Some 7%nat);
                          E_cubeb_stream_start (Some 7%nat)]))
    by (vm_compute; reflexivity).
  pose proof (proj1 startCapture_stores_read_back_parameters _ _ _ _ _ Hrun)
    as (_ & _ & _ & Hsr & Hcc).
  eexists; eexists. split; [ exact Hrun | ].
  split; [ exact Hsr | exact Hcc ].
Defined.

(** The constructor always returns, and leaves both values at zero. *)
Lemma AudioCapture_ctor_total be cb :
  exists this t,
    AudioCapture_ctor be cb = Some (this, t) /\
    sampleRate this = 0 /\ channelCount this = 0 /\
    capturing this = false /\ recordedAudio this = [] /\
    (init_fails be -> initialized this = false).
Proof.
  unfold AudioCapture_ctor, init_fails. rewrite initializeCubeb_eq.
  destruct (cubeb_init be) as [r0 ctx]; simpl.
  destruct (r0 =? CUBEB_OK) eqn:Hr0; simpl.
  2:{ eexists; eexists. repeat split. }
  apply Z.eqb_eq in Hr0.
  destruct (cubeb_enumerate_devices be) as [r1 collection]; simpl.
  destruct (r1 =? CUBEB_OK) eqn:Hr1; simpl.
  2:{ eexists; eexists. repeat split. }
  apply Z.eqb_eq in Hr1.
  destruct collection as [ | device0 rest].
  - eexists; eexists. repeat split.
  - eexists; eexists. repeat split.
    intros [H | [H | H]]; [ tauto | tauto | discriminate H ].
Qed.




(** ** Capture sink *)

Lemma chars_of_floats_length l :
  List.length (chars_of_floats l) = (4 * List.length l)%nat.
Proof.
  induction l as [ | f l IH]; simpl; [ reflexivity | rewrite IH; lia ].
Qed.

Lemma chars_of_floats_app l1 l2 :
  chars_of_floats (l1 ++ l2) = chars_of_floats l1 ++ chars_of_floats l2.
Proof. unfold chars_of_floats. apply flat_map_app. Qed.

(** The first [4 n] bytes of an array of samples are its first [n]
    samples. *)
Lemma firstn_chars_of_floats n l :
  firstn (4 * n) (chars_of_floats l) = chars_of_floats (firstn n l).
Proof.
  revert l. induction n as [ | n IH]; intros l.
  - reflexivity.
  - destruct l as [ | f l]; [ reflexivity | ].
    replace (4 * S n)%nat with (S (S (S (S (4 * n))))) by lia.
    simpl firstn at 2. simpl chars_of_floats.
    simpl. do 4 f_equal. apply IH.
Qed.

Lemma floats_of_chars_of_floats l : floats_of_chars (chars_of_floats l) = l.
Proof.
  induction l as [ | [c0 c1 c2 c3] l IH]; simpl; [ reflexivity | ].
  f_equal. exact IH.
Qed.

Lemma dataCallback_capture_eq input_samples nframes this :
  dataCallback_capture input_samples nframes this =
  let sample_count := to_int (nframes * channelCount this) in
  if negb (in_long (nframes * channelCount this)) then None else
  if (sample_count <? 0)
     || (Z.of_nat (List.length input_samples) <? sample_count) then None else
  Some (nframes,
        set_recordedAudio
          (recordedAudio this
           ++ firstn (Z.to_nat (to_size_t (to_size_t sample_count * sizeof_float)))
                     (chars_of_floats input_samples)) this,
        match callback this with
        | Some f =>
            [E_callback f (firstn (Z.to_nat sample_count) input_samples)
               (to_int nframes) (sampleRate this) (channelCount this)]
        | None => []
        end).
Proof.
  unfold dataCallback_capture, onAudioData. unfold_m. simpl.
  destruct (negb (in_long (nframes * channelCount this))); [ reflexivity | ].
  destruct ((to_int (nframes * channelCount this) <? 0)
            || (Z.of_nat (List.length input_samples)
                <? to_int (nframes * channelCount this)));
    [ reflexivity | ].
  simpl. destruct (callback this); reflexivity.
Qed.

(** One delivery of a buffer that holds [F] frames of [C] channels. *)
Lemma dataCallback_delivery capture b F :
  Z.of_nat (List.length b) = F * channelCount capture ->
  F * channelCount capture <= INT_MAX ->
  exists t,
    dataCallback (Some capture) (Some b) F
    = Some (F, Some (set_recordedAudio
                       (recordedAudio capture ++ chars_of_floats b) capture), t).
Proof.
  intros Hlen Hmax. unfold dataCallback. rewrite dataCallback_capture_eq.
  cbv zeta. rewrite <- Hlen in *.
  assert (Hint : to_int (Z.of_nat (List.length b)) = Z.of_nat (List.length b)).
  { apply to_int_small. unfold INT_MIN, INT_MAX in *. lia. }
  rewrite Hint.
  assert (Hlong : in_long (Z.of_nat (List.length b)) = true).
  { unfold in_long, LONG_MIN, LONG_MAX, INT_MAX in *.
    apply andb_true_iff. split; apply Z.leb_le; lia. }
  rewrite Hlong. simpl negb. cbv iota.
  replace (Z.of_nat (List.length b) <? 0) with false
    by (symmetry; apply Z.ltb_ge; lia).
  rewrite Z.ltb_irrefl. simpl orb. cbv iota.
  assert (Hbytes : Z.to_nat (to_size_t (to_size_t (Z.of_nat (List.length b))
                                        * sizeof_float))
                   = (4 * List.length b)%nat).
  { unfold sizeof_float, INT_MAX in *.
    rewrite (to_size_t_small (Z.of_nat (List.length b))) by lia.
    rewrite to_size_t_small by lia. lia. }
  rewrite Hbytes, firstn_chars_of_floats, firstn_all.
  eexists. reflexivity.
Qed.

Lemma deliver_session capture buffers F :
  Forall (fun b => Z.of_nat (List.length b) = F * channelCount capture) buffers ->
  F * channelCount capture <= INT_MAX ->
  deliver capture buffers F
  = Some (repeat F (List.length buffers),
          set_recordedAudio
            (recordedAudio capture ++ chars_of_floats (List.concat buffers)) capture).
Proof.
  intros Hbuf Hmax. revert capture Hbuf Hmax.
  induction buffers as [ | b rest IH]; intros capture Hbuf Hmax.
  - simpl. rewrite app_nil_r. destruct capture; reflexivity.
  - inversion Hbuf as [ | ? ? Hb Hrest]; subst.
    destruct (dataCallback_delivery capture b F Hb Hmax) as [t Hd].
    cbn [deliver]. rewrite Hd.
    rewrite IH by assumption.
    cbn [repeat List.length List.concat].
    rewrite chars_of_floats_app, app_assoc. reflexivity.
Qed.

(** C2: in a capture session, that is after a [startCapture] that returned
    true, every delivery of a non-null buffer of [F] frames with [C]
    channels ([C] the channel count of the session, [F * C] within [int])
    returns [F] and appends the [F * C * sizeof(float)] bytes of the buffer
    to the recording, so that after [N] deliveries the recording holds
    exactly [N * F * C * sizeof(float)] bytes: those of the buffers, in
    order. *)
Theorem capture_session_accumulates
    (be : backend) (i : Z) (this this1 : AudioCapture) (t : list event)
    (F : Z) (buffers : list (list float)) :
  startCapture be i this = Some (true, this1, t) ->
  let C := getChannelCount this1 in
  F * C <= INT_MAX ->
  Forall (fun b => Z.of_nat (List.length b) = F * C) buffers ->
  (forall capture b,
      channelCount capture = C -> In b buffers ->
      exists capture' t',
        dataCallback (Some capture) (Some b) F = Some (F, Some capture', t') /\
        recordedAudio capture' = recordedAudio capture ++ chars_of_floats b /\
        Z.of_nat (List.length (chars_of_floats b)) = F * C * sizeof_float) /\
  exists this2,
    deliver this1 buffers F = Some (repeat F (List.length buffers), this2) /\
    recordedAudio this2 = chars_of_floats (List.concat buffers) /\
    Z.of_nat (List.length (recordedAudio this2))
    = Z.of_nat (List.length buffers) * F * C * sizeof_float.
Proof.
  intros Hrun C Hmax Hbuf. unfold getChannelCount in C.
  assert (Hrec : recordedAudio this1 = []).
  { destruct (startCapture_cases _ _ _ _ _ _ Hrun) as [H | [H | [H | H]]];
      try (destruct H as [H _]; discriminate H).
    tauto. }
  split.
  - intros capture b Hcc HIn.
    rewrite Forall_forall in Hbuf. specialize (Hbuf b HIn).
    subst C. rewrite <- Hcc in *.
    destruct (dataCallback_delivery capture b F Hbuf Hmax) as [t' Hd].
    eexists; eexists. split; [ exact Hd | ].
    split; [ reflexivity | ].
    rewrite chars_of_floats_length. unfold sizeof_float. lia.
  - eexists. split; [ apply deliver_session; assumption | ].
    simpl. rewrite Hrec. split; [ reflexivity | ].
    simpl. rewrite chars_of_floats_length.
    assert (Hsum : Z.of_nat (List.length (List.concat buffers))
                   = Z.of_nat (List.length buffers) * (F * C)).
    { clear - Hbuf. induction Hbuf as [ | b rest Hb Hrest IH].
      - reflexivity.
      - cbn [List.concat List.length].
        rewrite length_app, Nat2Z.inj_add, Hb, IH, Nat2Z.inj_succ. ring. }
    unfold sizeof_float. rewrite Nat2Z.inj_mul, Hsum. ring.
Qed.

(** C7: a data callback on a null input buffer returns zero frames, leaves
    the registered object as it is, so nothing is appended to the
    recording, and makes no call at all, so the user callback is not
    invoked. *)
Theorem dataCallback_null_buffer (user_ptr : option AudioCapture) (nframes : Z) :
  dataCallback user_ptr None nframes = Some (0, user_ptr, []).
Proof. destruct user_ptr; reflexivity. Qed.

(** ** Export of an empty recording *)

(** C8: on an empty recording [saveRecordedAudio] returns false without
    having called the encoder: no file is opened, nothing is written. *)
Theorem saveRecordedAudio_empty (enc : DrWav.encoder) (this : AudioCapture) :
  recordedAudio this = [] ->
  saveRecordedAudio enc this = Some (false, this, []).
Proof.
  intros Hrec. unfold saveRecordedAudio. unfold_m. simpl.
  rewrite Hrec. reflexivity.
Qed.

Lemma saveRecordedAudio_empty_witness :
  recordedAudio fresh_handle = [] /\
  saveRecordedAudio enc_plain fresh_handle = Some (false, fresh_handle, []).
Proof.
  split; [ reflexivity | ].
  apply saveRecordedAudio_empty. reflexivity.
Defined.

Lemma capture_session_accumulates_witness :
  exists t this2,
    startCapture be_plain (-1) fresh_handle = Some (true, capturing_handle, t) /\
    deliver capturing_handle two_buffers 2 = Some ([2; 2], this2) /\
    Z.of_nat (List.length (recordedAudio this2)) = 32.
Proof.
  assert (Hrun : startCapture be_plain (-1) fresh_handle
                 = Some (true, capturing_handle,
                         [E_cubeb_stream_init (Some 0%nat) (Some 1%nat)
                            requested_params 4096;
                          E_cubeb_stream_get_latency (Some 7%nat);
                          E_cubeb_stream_start (Some 7%nat)]))
    by (vm_compute; reflexivity).
  assert (Hmax : 2 * getChannelCount capturing_handle <= INT_MAX)
    by (vm_compute; discriminate).
  assert (Hbuf : Forall (fun b => Z.of_nat (List.length b)
                                  = 2 * getChannelCount capturing_handle)
                        two_buffers)
    by (repeat constructor).
  destruct (capture_session_accumulates be_plain (-1) fresh_handle
              capturing_handle _ 2 two_buffers Hrun Hmax Hbuf)
    as [_ (this2 & Hd & _ & Hlen)].
  eexists; exists this2.
  split; [ exact Hrun | ].
  split; [ exact Hd | exact Hlen ].
Defined.

(** [recorded_handle] is what a 44.1 kHz mono session of one two-frame
    buffer leaves behind on a constructed handle. *)
Example recorded_handle_reachable :
  exists this0 t0 this1 t1 this2 this3 t3,
    AudioCapture_ctor be_negotiating (Some 0%nat) = Some (this0, t0) /\
    startCapture be_negotiating (-1) this0 = Some (true, this1, t1) /\
    deliver this1 [[f_one; f_half]] 2 = Some ([2], this2) /\
    stopCapture be_negotiating this2 = Some (true, this3, t3) /\
    this3 = recorded_handle.
Proof.
  do 7 eexists.
  split; [ vm_compute; reflexivity | ].
  split; [ vm_compute; reflexivity | ].
  split; [ vm_compute; reflexivity | ].
  split; [ vm_compute; reflexivity | ].
  reflexivity.
Qed.

(** ** A handle whose backend failed to initialise *)

Lemma run_api_degraded this cs :
  initialized this = false -> capturing this = false -> recordedAudio this = [] ->
  Forall degraded (run_api this cs) /\
  map (fun x => fst (fst (fst x))) (run_api this cs) = cs.
Proof.
  revert this. induction cs as [ | c cs IH]; intros this Hini Hcap Hrec.
  - split; [ constructor | reflexivity ].
  - assert (Hstep : exists r t this',
               api_step c this = Some (r, this', t) /\
               degraded (c, r, t, this') /\
               initialized this' = false /\ capturing this' = false /\
               recordedAudio this' = []).
    { destruct c as [be i | be | be i | be | cb | f | enc];
        unfold api_step, bind, ret.
      - rewrite startCapture_eq, Hini. simpl.
        do 3 eexists. repeat split; assumption.
      - rewrite stopCapture_eq, Hcap. simpl.
        do 3 eexists. repeat split; assumption.
      - rewrite setInputDevice_eq, Hini. simpl.
        do 3 eexists. repeat split; assumption.
      - rewrite getAvailableInputDevices_eq, Hini. simpl.
        do 3 eexists. repeat split; assumption.
      - unfold setCallback, store. simpl.
        do 3 eexists. repeat split; assumption.
      - unfold setOutputFile, store. simpl.
        do 3 eexists. repeat split; assumption.
      - replace (saveRecordedAudio enc this) with (Some (false, this, @nil event))
          by (unfold saveRecordedAudio; unfold_m; simpl; rewrite Hrec; reflexivity).
        simpl.
        do 3 eexists. repeat split; assumption. }
    destruct Hstep as (r & t & this' & Hstep & Hdeg & Hini' & Hcap' & Hrec').
    destruct (IH this' Hini' Hcap' Hrec') as [IHd IHc].
    cbn [run_api]. rewrite Hstep. split.
    + constructor; assumption.
    + cbn [map fst]. f_equal. exact IHc.
Qed.

(** C10: when backend initialisation fails during construction (backend
    unavailable, enumeration error or no input device), the constructor
    still returns a handle, and along every sequence of control-plane calls
    on that handle every call returns, [startCapture] and [setInputDevice]
    return false without a single backend call, in particular without
    attempting stream creation, and [getAvailableInputDevices] returns the
    empty sequence. *)
Theorem failed_initialization_degrades
    (be : backend) (cb : AudioDataCallback) :
  init_fails be ->
  exists this t,
    AudioCapture_ctor be cb = Some (this, t) /\
    forall cs,
      Forall degraded (run_api this cs) /\
      map (fun x => fst (fst (fst x))) (run_api this cs) = cs.
Proof.
  intros Hfail.
  destruct (AudioCapture_ctor_total be cb)
    as (this & t & Hctor & _ & _ & Hcap & Hrec & Hini).
  exists this, t. split; [ exact Hctor | ].
  intros cs. apply run_api_degraded; auto.
Qed.

Lemma failed_initialization_degrades_witness :
  init_fails be_unavailable /\
  exists this t,
    AudioCapture_ctor be_unavailable None = Some (this, t) /\
    Forall degraded (run_api this calls_after_failed_init) /\
    map (fun x => fst (fst (fst x))) (run_api this calls_after_failed_init)
    = calls_after_failed_init.
Proof.
  assert (Hfail : init_fails be_unavailable) by (left; discriminate).
  split; [ exact Hfail | ].
  destruct (failed_initialization_degrades be_unavailable None Hfail)
    as (this & t & Hctor & Hall).
  exists this, t. split; [ exact Hctor | ].
  exact (Hall calls_after_failed_init).
Defined.

(** The three causes, on concrete backends. *)
Example failed_initialization_causes :
  init_fails be_unavailable /\
  init_fails (mk_backend (0, Some 0%nat) (-1, []) (cubeb_stream_init be_plain) 0 0) /\
  init_fails (mk_backend (0, Some 0%nat) (0, []) (cubeb_stream_init be_plain) 0 0).
Proof.
  split; [ left; discriminate | ].
  split; [ right; left; discriminate | right; right; reflexivity ].
Qed.

(** ** Binary32 arithmetic of the conversion *)

(** A positive below [2 ^ n] has at most [n] binary digits. *)
Lemma digits2_pos_bound p : forall n, Z.pos p < 2 ^ n -> Z.pos (digits2_pos p) <= n.
Proof.
  induction p as [p IH | p IH | ]; intros n Hn.
  - assert (Hn0 : 0 < n).
    { destruct (Z.ltb_spec 0 n) as [H | H]; [ exact H | ].
      exfalso. destruct (Z.eq_dec n 0) as [-> | Hne].
      - simpl in Hn. lia.
      - rewrite Z.pow_neg_r in Hn by lia. lia. }
    replace n with (Z.succ (n - 1)) in Hn by lia.
    rewrite Z.pow_succ_r in Hn by lia.
    simpl digits2_pos. rewrite Pos2Z.inj_succ.
    specialize (IH (n - 1)). lia.
  - assert (Hn0 : 0 < n).
    { destruct (Z.ltb_spec 0 n) as [H | H]; [ exact H | ].
      exfalso. destruct (Z.eq_dec n 0) as [-> | Hne].
      - simpl in Hn. lia.
      - rewrite Z.pow_neg_r in Hn by lia. lia. }
    replace n with (Z.succ (n - 1)) in Hn by lia.
    rewrite Z.pow_succ_r in Hn by lia.
    simpl digits2_pos. rewrite Pos2Z.inj_succ.
    specialize (IH (n - 1)). lia.
  - assert (Hn0 : 0 < n).
    { destruct (Z.ltb_spec 0 n) as [H | H]; [ exact H | ].
      exfalso. destruct (Z.eq_dec n 0) as [-> | Hne].
      - simpl in Hn. lia.
      - rewrite Z.pow_neg_r in Hn by lia. lia. }
    simpl. lia.
Qed.

(** [iter_pos] is plain iteration. *)
Lemma iter_pos_nat {A} (f : A -> A) p : forall x,
  iter_pos f p x = Nat.iter (Pos.to_nat p) f x.
Proof.
  induction p as [p IH | p IH | ]; intros x; simpl iter_pos.
  - rewrite !IH. rewrite <- Nat.iter_add.
    rewrite Pos2Nat.inj_xI.
    replace (S (2 * Pos.to_nat p)) with (Pos.to_nat p + Pos.to_nat p + 1)%nat by lia.
    rewrite (Nat.iter_add _ 1). reflexivity.
  - rewrite !IH. rewrite <- Nat.iter_add.
    rewrite Pos2Nat.inj_xO.
    replace (2 * Pos.to_nat p)%nat with (Pos.to_nat p + Pos.to_nat p)%nat by lia.
    reflexivity.
  - reflexivity.
Qed.

(** One right shift halves the mantissa; [n] of them divide it by
    [2 ^ n] and raise the exponent by [n]. *)
Lemma shr_1_m r : 0 <= shr_m r -> shr_m (shr_1 r) = shr_m r / 2.
Proof.
  intros Hm. rewrite <- Z.div2_div.
  destruct r as [m b s]. cbn [shr_m] in *.
  destruct m as [ | [p | p | ] | p]; try reflexivity. lia.
Qed.

Lemma iter_shr_1_m n : forall r,
  0 <= shr_m r -> shr_m (Nat.iter n shr_1 r) = shr_m r / 2 ^ Z.of_nat n.
Proof.
  induction n as [ | n IH]; intros r Hr.
  - simpl. rewrite Z.div_1_r. reflexivity.
  - rewrite Nat2Z.inj_succ, Z.pow_succ_r by lia.
    simpl Nat.iter. rewrite shr_1_m.
    + rewrite IH by assumption. rewrite Z.div_div by lia.
      f_equal. lia.
    + rewrite IH by assumption. apply Z.div_pos; lia.
Qed.

Lemma shr_spec m b s e n :
  0 <= m ->
  snd (shr (Build_shr_record m b s) e n) = e + Z.max n 0 /\
  shr_m (fst (shr (Build_shr_record m b s) e n)) = m / 2 ^ Z.max n 0.
Proof.
  intros Hm. destruct n as [ | p | p]; simpl.
  - rewrite Z.div_1_r. split; lia.
  - rewrite iter_pos_nat, iter_shr_1_m by exact Hm.
    rewrite positive_nat_Z. simpl. split; reflexivity.
  - rewrite Z.div_1_r. split; lia.
Qed.

Lemma round_nearest_even_bounds m l :
  m <= round_nearest_even m l <= m + 1.
Proof.
  unfold round_nearest_even.
  destruct l as [ | [ | | ]]; try lia.
  destruct (Z.even m); lia.
Qed.

Lemma Zdigits2_bound m n : 0 <= n -> 0 <= m < 2 ^ n -> Zdigits2 m <= n.
Proof.
  intros Hn Hm. destruct m as [ | p | p]; simpl.
  - exact Hn.
  - apply digits2_pos_bound. lia.
  - lia.
Qed.

Lemma fexp32 x : fexp 24 128 x = Z.max (x - 24) (-149).
Proof. reflexivity. Qed.

(** Rounding a product of magnitude at most 32767 to 24 bits and then
    truncating it toward zero stays within [-32767, 32767]: the rounded
    value exceeds the exact one by less than one unit in the last place,
    which is at most [2 ^ -9] here. *)
Lemma round_aux_bound s (M : positive) E :
  E <= -9 ->
  Z.pos M <= 32767 * 2 ^ (- E) ->
  exists z,
    Float32.trunc (binary_round_aux 24 128 s (Z.pos M) E loc_Exact) = Some z /\
    -32767 <= z <= 32767.
Proof.
  intros HE HM.
  unfold binary_round_aux, shr_fexp.
  set (a := - E) in *.
  assert (Ha : 9 <= a) by lia.
  assert (HM15 : Z.pos M < 2 ^ (15 + a)).
  { rewrite Z.pow_add_r by lia. change (2 ^ 15) with 32768.
    assert (0 < 2 ^ a) by (apply Z.pow_pos_nonneg; lia). lia. }
  assert (Hd : Zdigits2 (Z.pos M) <= 15 + a).
  { apply Zdigits2_bound; lia. }
  set (d := Zdigits2 (Z.pos M)) in *.
  rewrite fexp32.
  set (f1 := Z.max (d + E - 24) (-149)).
  assert (Hf1 : -149 <= f1 <= -9) by (unfold f1; lia).
  cbn [shr_record_of_loc].
  destruct (shr_spec (Z.pos M) false false E (f1 - E)) as [He1 Hm1]; [ lia | ].
  destruct (shr {| shr_m := Z.pos M; shr_r := false; shr_s := false |} E (f1 - E))
    as [r1 e1]. cbn [fst snd] in He1, Hm1.
  set (j1 := Z.max (f1 - E) 0) in *.
  assert (Hj1 : 0 <= j1 <= a - 9) by (unfold j1; lia).
  assert (He1' : -149 <= e1 <= -9) by (unfold j1 in *; lia).
  pose proof (round_nearest_even_bounds (shr_m r1) (loc_of_shr_record r1)) as Hrnd.
  set (m1' := round_nearest_even (shr_m r1) (loc_of_shr_record r1)) in *.
  assert (HP1 : 0 < 2 ^ j1) by (apply Z.pow_pos_nonneg; lia).
  assert (Hm1lo : 0 <= shr_m r1).
  { rewrite Hm1. apply Z.div_pos; lia. }
  assert (Hm1up : shr_m r1 * 2 ^ j1 <= Z.pos M).
  { rewrite Hm1. rewrite Z.mul_comm. apply Z.mul_div_le. exact HP1. }
  (* the rounded mantissa still has few digits *)
  assert (Hsplit : 2 ^ (15 + a) = 2 ^ (15 + a - j1) * 2 ^ j1).
  { rewrite <- Z.pow_add_r by lia. f_equal. lia. }
  assert (HQ1 : 0 < 2 ^ (15 + a - j1)) by (apply Z.pow_pos_nonneg; lia).
  assert (Hm1lt : shr_m r1 < 2 ^ (15 + a - j1)) by nia.
  assert (Hd' : Zdigits2 m1' <= 16 + a - j1).
  { apply Zdigits2_bound; [ lia | ].
    replace (16 + a - j1) with (Z.succ (15 + a - j1)) by lia.
    rewrite Z.pow_succ_r by lia. lia. }
  rewrite fexp32.
  set (f2 := Z.max (Zdigits2 m1' + e1 - 24) (-149)).
  assert (Hf2 : -149 <= f2 <= -8) by (unfold f2; lia).
  destruct (shr_spec m1' false false e1 (f2 - e1)) as [He2 Hm2]; [ lia | ].
  destruct (shr {| shr_m := m1'; shr_r := false; shr_s := false |} e1 (f2 - e1))
    as [r2 e2]. cbn [fst snd] in He2, Hm2.
  set (j2 := Z.max (f2 - e1) 0) in *.
  assert (Hj2 : 0 <= j2) by (unfold j2; lia).
  assert (He2' : e1 <= e2 <= -8) by (unfold j2 in *; lia).
  assert (HP2 : 0 < 2 ^ j2) by (apply Z.pow_pos_nonneg; lia).
  assert (Hm2lo : 0 <= shr_m r2).
  { rewrite Hm2. apply Z.div_pos; lia. }
  assert (Hm2up : shr_m r2 * 2 ^ j2 <= m1').
  { rewrite Hm2. rewrite Z.mul_comm. apply Z.mul_div_le. exact HP2. }
  destruct (shr_m r2) as [ | m | m] eqn:Hr2.
  - exists 0. split; [ reflexivity | lia ].
  - replace (e2 <=? 128 - 24) with true by (symmetry; apply Z.leb_le; lia).
    cbn [Float32.trunc].
    replace (0 <=? e2) with false by (symmetry; apply Z.leb_gt; lia).
    eexists. split; [ reflexivity | ].
    assert (Hq : 0 <= Z.pos m / 2 ^ (- e2) <= 32767).
    { assert (HQ : 0 < 2 ^ (- e2)) by (apply Z.pow_pos_nonneg; lia).
      split; [ apply Z.div_pos; lia | ].
      apply Z.lt_succ_r. apply Z.div_lt_upper_bound; [ exact HQ | ].
      change (Z.succ 32767) with 32768.
      assert (Ha2 : 2 ^ a = 2 ^ (- e2) * (2 ^ j1 * 2 ^ j2)).
      { rewrite <- !Z.pow_add_r by lia. f_equal. lia. }
      assert (Hlt1 : 2 ^ j1 < 2 ^ a) by (apply Z.pow_lt_mono_r; lia).
      assert (Hchain : Z.pos m * (2 ^ j1 * 2 ^ j2) < 32768 * 2 ^ a) by nia.
      rewrite Ha2 in Hchain.
      assert (HPP : 0 < 2 ^ j1 * 2 ^ j2) by nia.
      nia. }
    destruct s; cbn [cond_Zopp]; lia.
  - lia.
Qed.

(** [x * 32767.0f] for a finite [x] of magnitude at most one. *)
Lemma mul_32767_bound s m e :
  e <= -23 -> Z.pos m <= 2 ^ (- e) ->
  exists z,
    Float32.trunc (Float32.mul (S754_finite s m e) Float32.lit_32767_0f) = Some z /\
    -32767 <= z <= 32767.
Proof.
  intros He Hm.
  unfold Float32.mul, Float32.lit_32767_0f, SFmul.
  rewrite xorb_false_r.
  apply round_aux_bound; [ lia | ].
  rewrite Pos2Z.inj_mul.
  replace (- (e + -9)) with (9 + - e) by lia.
  rewrite Z.pow_add_r by lia.
  change (2 ^ 9) with 512. change (Z.pos 16776704) with (32767 * 512).
  nia.
Qed.

(** The mantissa of a decoded sample has at most 24 bits. *)
Lemma of_bits_finite w s m e :
  Float32.of_bits w = S754_finite s m e -> Z.pos m < 16777216.
Proof.
  unfold Float32.of_bits.
  assert (Hf : 0 <= Z.land w (2 ^ 23 - 1) < 2 ^ 23).
  { change (2 ^ 23 - 1) with (Z.ones 23). rewrite Z.land_ones by discriminate.
    apply Z.mod_pos_bound. reflexivity. }
  revert Hf.
  generalize (Z.land w (2 ^ 23 - 1)) as f.
  generalize (Z.land (Z.shiftr w 23) 255) as ex.
  generalize (Z.testbit w 31) as sg.
  intros sg ex f Hf.
  assert (Hg : 0 < f + 2 ^ 23 < 16777216).
  { change (2 ^ 23) with 8388608 in *. lia. }
  revert Hg. generalize (f + 2 ^ 23) as g. intros g Hg.
  change (2 ^ 23) with 8388608 in Hf.
  destruct (ex =? 0).
  - destruct f as [ | p | p ]; intros H; inversion H; subst. lia.
  - destruct (ex =? 255).
    + destruct (f =? 0); discriminate.
    + destruct g as [ | p | p ]; intros H; inversion H; subst. lia.
Qed.

Lemma compare_cont_spec p q :
  CompareSpec (p = q) (Z.pos p < Z.pos q) (Z.pos q < Z.pos p)
              (Pos.compare_cont Eq p q).
Proof.
  change (Pos.compare_cont Eq p q) with (Pos.compare p q).
  destruct (Pos.compare_spec p q) as [H | H | H]; constructor; exact H.
Qed.

Lemma compare_cont_antisym p q :
  Pos.compare_cont Eq q p = CompOpp (Pos.compare_cont Eq p q).
Proof. exact (Pos.compare_antisym p q). Qed.

(** The two comparisons of the clamp, on a finite number. *)
Lemma lt_one s m e :
  SFltb (S754_finite s m e) Float32.lit_1_0f = if s then true else inside m e.
Proof.
  unfold SFltb, SFcompare, Float32.lit_1_0f, inside.
  destruct s; [ reflexivity | ].
  destruct (e ?= -23); reflexivity.
Qed.

Lemma minus_one_lt s m e :
  SFltb Float32.lit_m1_0f (S754_finite s m e) = if s then inside m e else true.
Proof.
  unfold SFltb, SFcompare, Float32.lit_m1_0f, inside.
  destruct s; [ | reflexivity ].
  rewrite (Z.compare_antisym e (-23)).
  rewrite (compare_cont_antisym m 8388608).
  destruct (e ?= -23); try reflexivity.
  destruct (Pos.compare_cont Eq m 8388608); reflexivity.
Qed.

Lemma clamp_code_finite s m e :
  clamp_code (S754_finite s m e) =
  if inside m e then S754_finite s m e
  else if s then Float32.lit_m1_0f else Float32.lit_1_0f.
Proof.
  unfold clamp_code, Float32.std_min, Float32.std_max, Float32.lt.
  rewrite lt_one.
  destruct s.
  - rewrite minus_one_lt. destruct (inside m e); reflexivity.
  - destruct (inside m e) eqn:Hin.
    + rewrite minus_one_lt. reflexivity.
    + reflexivity.
Qed.

Lemma inside_bound m e :
  inside m e = true -> Z.pos m < 16777216 -> e <= -23 /\ Z.pos m <= 2 ^ (- e).
Proof.
  unfold inside. intros Hin Hm.
  destruct (Z.compare_spec e (-23)) as [He | He | He].
  - subst e. destruct (compare_cont_spec m 8388608) as [H | H | H];
      try discriminate.
    clear Hin. split; [ lia | ]. change (2 ^ (- -23)) with 8388608. lia.
  - clear Hin. split; [ lia | ].
    assert (16777216 <= 2 ^ (- e)).
    { change 16777216 with (2 ^ 24). apply Z.pow_le_mono_r; lia. }
    lia.
  - discriminate.
Qed.

Ltac cmp_cases :=
  repeat (cbn [CompOpp];
          match goal with
          | |- context [Z.compare ?a ?b] =>
              destruct (Z.compare_spec a b); try lia
          | |- context [Pos.compare_cont Eq ?a ?b] =>
              let H := fresh "H" in
              destruct (compare_cont_spec a b) as [H | H | H];
              [ first [ subst a | subst b | clear H ] | | ]; try lia
          end).

(** The [std::max] / [std::min] pair clamps to [-1.0, 1.0]; a NaN ends up
    at [1.0f]. *)
Lemma clamp_code_clamped v : clamped v (clamp_code v).
Proof.
  destruct v as [s | s | | s m e].
  - destruct s; vm_compute; repeat split; congruence.
  - destruct s; vm_compute; repeat split; congruence.
  - vm_compute; repeat split; congruence.
  - rewrite clamp_code_finite. unfold clamped, inside.
    unfold SFleb, SFltb, Float32.lit_1_0f, Float32.lit_m1_0f.
    destruct s; destruct (Z.compare_spec e (-23)) as [He | He | He];
      [ destruct (compare_cont_spec m 8388608) as [Hm | Hm | Hm] | |
      | destruct (compare_cont_spec m 8388608) as [Hm | Hm | Hm] | | ];
      subst; unfold SFcompare; cmp_cases;
      repeat split; try reflexivity; try discriminate.
Qed.

Lemma pcm_of_float_eq x :
  pcm_of_float x =
  Float32.static_cast_int16
    (Float32.mul (clamp_code (Float32.value x)) Float32.lit_32767_0f).
Proof. reflexivity. Qed.

Lemma clamp_mul_bound v :
  (forall s m e, v = S754_finite s m e -> Z.pos m < 16777216) ->
  exists z,
    Float32.trunc (Float32.mul (clamp_code v) Float32.lit_32767_0f) = Some z /\
    -32767 <= z <= 32767.
Proof.
  intros Hv. destruct v as [s | s | | s m e].
  - destruct s; exists 0; split; [ reflexivity | lia | reflexivity | lia ].
  - destruct s; [ exists (-32767) | exists 32767 ];
      (split; [ vm_compute; reflexivity | lia ]).
  - exists 32767. split; [ vm_compute; reflexivity | lia ].
  - rewrite clamp_code_finite.
    destruct (inside m e) eqn:Hin.
    + destruct (inside_bound m e Hin (Hv s m e eq_refl)) as [He Hm].
      apply mul_32767_bound; assumption.
    + destruct s; [ exists (-32767) | exists 32767 ];
        (split; [ vm_compute; reflexivity | lia ]).
Qed.

(** One iteration of the conversion loop never runs into undefined
    behaviour and yields the sample clamped, scaled and truncated. *)
Lemma pcm_of_float_spec x :
  exists z,
    pcm_of_float x = Some z /\
    spec_pcm (Float32.value x) z /\
    -32767 <= z <= 32767.
Proof.
  destruct (clamp_mul_bound (Float32.value x)) as (z & Htr & Hz).
  { intros s m e Hv. exact (of_bits_finite _ _ _ _ Hv). }
  exists z. split; [ | split ].
  - rewrite pcm_of_float_eq. unfold Float32.static_cast_int16. rewrite Htr.
    replace (-32768 <=? z) with true by (symmetry; apply Z.leb_le; lia).
    replace (z <=? 32767) with true by (symmetry; apply Z.leb_le; lia).
    reflexivity.
  - exists (clamp_code (Float32.value x)). split; [ apply clamp_code_clamped | exact Htr ].
  - exact Hz.
Qed.

(** [Float32.trunc] is truncation toward zero: the result has the sign of
    the number and the largest integer magnitude not above its own. *)
Lemma trunc_toward_zero s m e z :
  Float32.trunc (S754_finite s m e) = Some z ->
  (if s then z <= 0 else 0 <= z) /\
  (0 <= e -> Z.abs z = Z.pos m * 2 ^ e) /\
  (e < 0 -> Z.abs z * 2 ^ (- e) <= Z.pos m < (Z.abs z + 1) * 2 ^ (- e)).
Proof.
  unfold Float32.trunc. intros H.
  assert (Hz : z = cond_Zopp s (if 0 <=? e then Z.pos m * 2 ^ e
                                else Z.pos m / 2 ^ (- e))) by congruence.
  clear H. subst z.
  destruct (Z.leb_spec 0 e) as [He | He].
  - assert (Hp : 0 < 2 ^ e) by (apply Z.pow_pos_nonneg; lia).
    assert (Hq : 0 < Z.pos m * 2 ^ e) by (apply Z.mul_pos_pos; lia).
    set (q := Z.pos m * 2 ^ e) in *.
    destruct s; cbn [cond_Zopp]; repeat split; try lia.
  - assert (Hp : 0 < 2 ^ (- e)) by (apply Z.pow_pos_nonneg; lia).
    pose proof (Z.div_pos (Z.pos m) (2 ^ (- e)) ltac:(lia) Hp) as Hq.
    pose proof (Z.mul_div_le (Z.pos m) (2 ^ (- e)) Hp) as Hlo.
    pose proof (Z.mul_succ_div_gt (Z.pos m) (2 ^ (- e)) Hp) as Hhi.
    set (q := Z.pos m / 2 ^ (- e)) in *.
    destruct s; cbn [cond_Zopp]; repeat split; try lia;
      intros _; rewrite ?Z.abs_opp, Z.abs_eq by lia; nia.
Qed.

Lemma convert_loop_spec floatData : forall pcmData,
  exists pcm,
    convert_loop floatData pcmData = Some (pcmData ++ pcm) /\
    Forall2 (fun x z => pcm_of_float x = Some z) floatData pcm.
Proof.
  induction floatData as [ | x rest IH]; intros pcmData.
  - exists []. rewrite app_nil_r. split; [ reflexivity | constructor ].
  - destruct (pcm_of_float_spec x) as (z & Hz & _).
    destruct (IH (pcmData ++ [z])) as (pcm & Hloop & Hall).
    exists (z :: pcm). cbn [convert_loop]. rewrite Hz, Hloop.
    rewrite <- app_assoc. split; [ reflexivity | ].
    constructor; assumption.
Qed.

Lemma floats_of_chars_length_le : forall n l,
  (List.length l <= n)%nat ->
  (4 * List.length (floats_of_chars l) <= List.length l)%nat.
Proof.
  induction n as [ | n IH]; intros l Hl.
  - destruct l; simpl in *; lia.
  - destruct l as [ | c0 [ | c1 [ | c2 [ | c3 rest]]]]; simpl; try lia.
    assert (Hr : (List.length rest <= n)%nat) by (simpl in Hl; lia).
    specialize (IH rest Hr). simpl in IH. lia.
Qed.

Lemma saveRecordedAudio_eq enc this :
  saveRecordedAudio enc this =
  match recordedAudio this with
  | [] => Some (false, this, [])
  | _ :: _ =>
      let wavFile := wav_file_name (outputFile this) in
      let numSamples :=
        to_int (Z.of_nat (List.length (recordedAudio this)) / sizeof_float) in
      match convert_loop (firstn (Z.to_nat numSamples)
                            (floats_of_chars (recordedAudio this))) [] with
      | None => None
      | Some pcmData =>
          let format :=
            {| DrWav.container := DrWav.drwav_container_riff;
               DrWav.format := DrWav.DR_WAVE_FORMAT_PCM;
               DrWav.channels := to_uint32 (channelCount this);
               DrWav.sampleRate := to_uint32 (sampleRate this);
               DrWav.bitsPerSample := 16 |} in
          if negb (DrWav.drwav_init_file_write enc wavFile format) then
            Some (false, this, [E_drwav_init_file_write wavFile format])
          else if to_size_t (channelCount this) =? 0 then None
          else
            let frames := Z.of_nat (List.length pcmData)
                          / to_size_t (channelCount this) in
            Some (negb (DrWav.drwav_write_pcm_frames enc frames pcmData =? 0),
                  this,
                  [E_drwav_init_file_write wavFile format;
                   E_drwav_write_pcm_frames frames pcmData;
                   E_drwav_uninit])
      end
  end.
Proof.
  unfold saveRecordedAudio, bind, ret, load, store, emit, undefined. simpl.
  destruct (recordedAudio this) as [ | c rest]; [ reflexivity | ].
  destruct (convert_loop _ []) as [pcmData | ]; [ | reflexivity ].
  simpl.
  destruct (DrWav.drwav_init_file_write enc _ _); simpl; [ | reflexivity ].
  destruct (to_size_t (channelCount this) =? 0); simpl; [ reflexivity | ].
  destruct (DrWav.drwav_write_pcm_frames enc _ pcmData =? 0); reflexivity.
Qed.

(** C3: on a non-empty recording whose sample count fits [int], with a
    positive channel count, [saveRecordedAudio] converts every stored
    sample: the PCM array it hands to the encoder holds, sample for sample,
    the stored [float] clamped to [-1.0, 1.0], multiplied by [32767.0f] in
    binary32 and truncated toward zero, a function of the sample alone and
    always within [-32767, 32767].  The encoder is opened for 16-bit PCM
    with the stored channel count and sample rate and is given the array as
    [size / channelCount] frames of [channelCount] consecutive samples. *)
Theorem saveRecordedAudio_converts (enc : DrWav.encoder) (this : AudioCapture) :
  recordedAudio this <> [] ->
  Z.of_nat (List.length (recordedAudio this)) / sizeof_float <= INT_MAX ->
  0 < channelCount this <= INT_MAX ->
  exists pcm,
    Forall2 (fun x z => spec_pcm (Float32.value x) z /\ -32767 <= z <= 32767)
            (floats_of_chars (recordedAudio this)) pcm /\
    let wavFile := wav_file_name (outputFile this) in
    let format :=
      {| DrWav.container := DrWav.drwav_container_riff;
         DrWav.format := DrWav.DR_WAVE_FORMAT_PCM;
         DrWav.channels := channelCount this;
         DrWav.sampleRate := to_uint32 (sampleRate this);
         DrWav.bitsPerSample := 16 |} in
    let frames := Z.of_nat (List.length pcm) / channelCount this in
    saveRecordedAudio enc this =
    (if DrWav.drwav_init_file_write enc wavFile format then
       Some (negb (DrWav.drwav_write_pcm_frames enc frames pcm =? 0), this,
             [E_drwav_init_file_write wavFile format;
              E_drwav_write_pcm_frames frames pcm;
              E_drwav_uninit])
     else Some (false, this, [E_drwav_init_file_write wavFile format])) /\
    frames * channelCount this <= Z.of_nat (List.length pcm)
    < (frames + 1) * channelCount this.
Proof.
  intros Hrec Hn [Hc0 Hc1].
  destruct (convert_loop_spec (floats_of_chars (recordedAudio this)) [])
    as (pcm & Hloop & Hall).
  exists pcm. split; [ | split ].
  - eapply Forall2_impl; [ | exact Hall ].
    intros x z Hz. cbv beta in Hz.
    destruct (pcm_of_float_spec x) as (z' & Hz' & Hspec & Hrange).
    assert (z = z') by congruence. subst z'. split; assumption.
  - cbv zeta. rewrite saveRecordedAudio_eq.
    destruct (recordedAudio this) as [ | c rest] eqn:Hr; [ congruence | ].
    rewrite <- Hr in *. cbv zeta.
    assert (Hfirst : firstn (Z.to_nat (to_int (Z.of_nat (List.length (recordedAudio this))
                                               / sizeof_float)))
                            (floats_of_chars (recordedAudio this))
                     = floats_of_chars (recordedAudio this)).
    { apply firstn_all2.
      pose proof (floats_of_chars_length_le _ (recordedAudio this) (le_n _)) as Hle.
      rewrite to_int_small.
      - apply Nat2Z.inj_le. rewrite Z2Nat.id.
        + apply Z.div_le_lower_bound; unfold sizeof_float; lia.
        + apply Z.div_pos; unfold sizeof_float; lia.
      - unfold INT_MIN, INT_MAX in *. split; [ | exact Hn ].
        assert (0 <= Z.of_nat (List.length (recordedAudio this)) / sizeof_float)
          by (apply Z.div_pos; unfold sizeof_float; lia).
        lia. }
    rewrite Hfirst, Hloop. cbn [app].
    assert (Hu : to_uint32 (channelCount this) = channelCount this).
    { unfold to_uint32, INT_MAX in *. apply Z.mod_small. lia. }
    assert (Hs : to_size_t (channelCount this) = channelCount this).
    { apply to_size_t_small. unfold INT_MAX in *. lia. }
    rewrite Hu, Hs.
    destruct (DrWav.drwav_init_file_write enc _ _); cbn [negb]; [ | reflexivity ].
    replace (channelCount this =? 0) with false
      by (symmetry; apply Z.eqb_neq; lia).
    reflexivity.
  - cbv zeta. split.
    + rewrite Z.mul_comm. apply Z.mul_div_le. exact Hc0.
    + rewrite Z.mul_comm. apply Z.mul_succ_div_gt. exact Hc0.
Qed.

Lemma saveRecordedAudio_converts_witness :
  exists pcm,
    Forall2 (fun x z => spec_pcm (Float32.value x) z /\ -32767 <= z <= 32767)
            [f_one; f_half] pcm /\
    saveRecordedAudio enc_plain recorded_handle
    = Some (true, recorded_handle,
            [E_drwav_init_file_write "captured-audio.wav"
               (DrWav.mk_format DrWav.drwav_container_riff DrWav.DR_WAVE_FORMAT_PCM
                  1 44100 16);
             E_drwav_write_pcm_frames (Z.of_nat (List.length pcm) / 1) pcm;
             E_drwav_uninit]).
Proof.
  assert (H1 : recordedAudio recorded_handle <> []) by discriminate.
  assert (H2 : Z.of_nat (List.length (recordedAudio recorded_handle)) / sizeof_float
               <= INT_MAX) by (vm_compute; discriminate).
  assert (H3 : 0 < channelCount recorded_handle <= INT_MAX)
    by (split; vm_compute; [ reflexivity | discriminate ]).
  destruct (saveRecordedAudio_converts enc_plain recorded_handle H1 H2 H3)
    as (pcm & Hall & Hsave & _).
  exists pcm. split; [ exact Hall | ].
  cbv zeta in Hsave. rewrite Hsave.
  assert (Hlen : List.length pcm = 2%nat).
  { apply Forall2_length in Hall. symmetry. exact Hall. }
  rewrite Hlen. reflexivity.
Defined.

(** The export of [recorded_handle], evaluated. *)
Example saveRecordedAudio_recorded_handle :
  saveRecordedAudio enc_plain recorded_handle
  = Some (true, recorded_handle,
          [E_drwav_init_file_write "captured-audio.wav"
             (DrWav.mk_format DrWav.drwav_container_riff DrWav.DR_WAVE_FORMAT_PCM
                1 44100 16);
           E_drwav_write_pcm_frames 2 [32767; 16383];
           E_drwav_uninit]).
Proof. vm_compute. reflexivity. Qed.

(* ================================================================== *)
(** * Part 3: further properties of the code                            *)
(* ================================================================== *)

(** The export of a non-empty recording, for reuse. *)
Lemma export_converts (enc : DrWav.encoder) (this : AudioCapture) :
  recordedAudio this <> [] ->
  Z.of_nat (List.length (recordedAudio this)) / sizeof_float <= INT_MAX ->
  0 < channelCount this <= INT_MAX ->
  exists pcm,
    Forall2 (fun x z => spec_pcm (Float32.value x) z /\ -32767 <= z <= 32767)
            (floats_of_chars (recordedAudio this)) pcm /\
    let wavFile := wav_file_name (outputFile this) in
    let format :=
      {| DrWav.container := DrWav.drwav_container_riff;
         DrWav.format := DrWav.DR_WAVE_FORMAT_PCM;
         DrWav.channels := channelCount this;
         DrWav.sampleRate := to_uint32 (sampleRate this);
         DrWav.bitsPerSample := 16 |} in
    let frames := Z.of_nat (List.length pcm) / channelCount this in
    saveRecordedAudio enc this =
    (if DrWav.drwav_init_file_write enc wavFile format then
       Some (negb (DrWav.drwav_write_pcm_frames enc frames pcm =? 0), this,
             [E_drwav_init_file_write wavFile format;
              E_drwav_write_pcm_frames frames pcm;
              E_drwav_uninit])
     else Some (false, this, [E_drwav_init_file_write wavFile format])) /\
    frames * channelCount this <= Z.of_nat (List.length pcm)
    < (frames + 1) * channelCount this.
Proof.
  intros Hrec Hn [Hc0 Hc1].
  destruct (convert_loop_spec (floats_of_chars (recordedAudio this)) [])
    as (pcm & Hloop & Hall).
  exists pcm. split; [ | split ].
  - eapply Forall2_impl; [ | exact Hall ].
    intros x z Hz. cbv beta in Hz.
    destruct (pcm_of_float_spec x) as (z' & Hz' & Hspec & Hrange).
    assert (z = z') by congruence. subst z'. split; assumption.
  - cbv zeta. rewrite saveRecordedAudio_eq.
    destruct (recordedAudio this) as [ | c rest] eqn:Hr; [ congruence | ].
    rewrite <- Hr in *. cbv zeta.
    assert (Hfirst : firstn (Z.to_nat (to_int (Z.of_nat (List.length (recordedAudio this))
                                               / sizeof_float)))
                            (floats_of_chars (recordedAudio this))
                     = floats_of_chars (recordedAudio this)).
    { apply firstn_all2.
      pose proof (floats_of_chars_length_le _ (recordedAudio this) (le_n _)) as Hle.
      rewrite to_int_small.
      - apply Nat2Z.inj_le. rewrite Z2Nat.id.
        + apply Z.div_le_lower_bound; unfold sizeof_float; lia.
        + apply Z.div_pos; unfold sizeof_float; lia.
      - unfold INT_MIN, INT_MAX in *. split; [ | exact Hn ].
        assert (0 <= Z.of_nat (List.length (recordedAudio this)) / sizeof_float)
          by (apply Z.div_pos; unfold sizeof_float; lia).
        lia. }
    rewrite Hfirst, Hloop. cbn [app].
    assert (Hu : to_uint32 (channelCount this) = channelCount this).
    { unfold to_uint32, INT_MAX in *. apply Z.mod_small. lia. }
    assert (Hs : to_size_t (channelCount this) = channelCount this).
    { apply to_size_t_small. unfold INT_MAX in *. lia. }
    rewrite Hu, Hs.
    destruct (DrWav.drwav_init_file_write enc _ _); cbn [negb]; [ | reflexivity ].
    replace (channelCount this =? 0) with false
      by (symmetry; apply Z.eqb_neq; lia).
    reflexivity.
  - cbv zeta. split.
    + rewrite Z.mul_comm. apply Z.mul_div_le. exact Hc0.
    + rewrite Z.mul_comm. apply Z.mul_succ_div_gt. exact Hc0.
Qed.

(** ** Device selection *)

(** A [setInputDevice] that returns false leaves the handle exactly as it
    was, and an index that is negative or not below the number of
    enumerated devices always makes it return false. *)
Theorem setInputDevice_rejection_keeps_handle
    (be : backend) (i : Z) (this : AudioCapture) :
  (forall this' t,
      setInputDevice be i this = Some (false, this', t) -> this' = this) /\
  (i < 0 \/ Z.of_nat (List.length (snd (cubeb_enumerate_devices be))) <= i ->
   exists t, setInputDevice be i this = Some (false, this, t)).
Proof.
  rewrite setInputDevice_eq. split.
  - intros this' t.
    destruct (negb (initialized this) || is_null (context this));
      [ intros H; inversion H; reflexivity | ].
    destruct (capturing this); [ intros H; inversion H; reflexivity | ].
    destruct (cubeb_enumerate_devices be) as [r collection]; cbv zeta.
    destruct (negb (r =? CUBEB_OK)); [ intros H; inversion H; reflexivity | ].
    destruct ((i <? 0) || (to_int (Z.of_nat (List.length collection)) <=? i));
      [ intros H; inversion H; reflexivity | ].
    destruct (nth_error collection (Z.to_nat i)) as [device | ]; [ | discriminate ].
    destruct (friendly_name device), (device_id device); discriminate.
  - intros Hrange.
    destruct (negb (initialized this) || is_null (context this));
      [ eexists; reflexivity | ].
    destruct (capturing this); [ eexists; reflexivity | ].
    destruct (cubeb_enumerate_devices be) as [r collection]; cbv zeta.
    cbn [snd] in Hrange.
    destruct (negb (r =? CUBEB_OK)); [ eexists; reflexivity | ].
    replace ((i <? 0) || (to_int (Z.of_nat (List.length collection)) <=? i))
      with true; [ eexists; reflexivity | ].
    symmetry. apply orb_true_iff.
    destruct Hrange as [Hneg | Hbig].
    + left. apply Z.ltb_lt. exact Hneg.
    + right. apply Z.leb_le.
      pose proof (to_int_le (Z.of_nat (List.length collection))). lia.
Qed.

Lemma setInputDevice_rejection_keeps_handle_witness :
  (2 < 0 \/ Z.of_nat (List.length (snd (cubeb_enumerate_devices be_plain))) <= 2) /\
  exists t, setInputDevice be_plain 2 fresh_handle = Some (false, fresh_handle, t).
Proof.
  assert (H : 2 < 0
              \/ Z.of_nat (List.length (snd (cubeb_enumerate_devices be_plain))) <= 2).
  { right. vm_compute. discriminate. }
  split; [ exact H | ].
  exact (proj2 (setInputDevice_rejection_keeps_handle be_plain 2 fresh_handle) H).
Defined.

Lemma setInputDevice_success
    (be : backend) (i : Z) (this this' : AudioCapture) (t : list event) :
  setInputDevice be i this = Some (true, this', t) ->
  exists d name,
    0 <= i /\
    nth_error (snd (cubeb_enumerate_devices be)) (Z.to_nat i) = Some d /\
    device_name d = Some name /\
    this' = set_currentDeviceName name
              (set_inputDeviceIndex i (set_inputDeviceId (devid d) this)) /\
    getCurrentInputDevice this' = name /\
    initialized this = true /\ isCapturing this = false /\
    t = [E_cubeb_enumerate_devices (context this);
         E_cubeb_device_collection_destroy (context this)].
Proof.
  rewrite setInputDevice_eq. unfold isCapturing, device_name.
  destruct (initialized this); cbn [negb orb]; [ | discriminate ].
  destruct (is_null (context this)); [ discriminate | ].
  destruct (capturing this); [ discriminate | ].
  destruct (cubeb_enumerate_devices be) as [r collection]; cbv zeta. cbn [snd].
  destruct (negb (r =? CUBEB_OK)); [ discriminate | ].
  destruct ((i <? 0) || (to_int (Z.of_nat (List.length collection)) <=? i)) eqn:Hr;
    [ discriminate | ].
  apply orb_false_iff in Hr. destruct Hr as [Hlo _]. apply Z.ltb_ge in Hlo.
  destruct (nth_error collection (Z.to_nat i)) as [device | ]; [ | discriminate ].
  destruct (friendly_name device) as [n1 | ] eqn:Hf;
    [ | destruct (device_id device) as [n2 | ] eqn:Hd; [ | discriminate ] ];
    intros H; inversion H; subst; clear H.
  - exists device, n1. rewrite Hf. repeat split; auto.
  - exists device, n2. rewrite Hf, Hd. repeat split; auto.
Qed.

(** A [setInputDevice] that returns true was given an index within the
    enumeration on an initialised handle that is not capturing, and has
    recorded the identifier, the index and the name (friendly name, else
    device identifier) of the device at that index; nothing else changes,
    and the collection is enumerated once and released once. *)
Theorem setInputDevice_selects_indexed_device
    (be : backend) (i : Z) (this this' : AudioCapture) (t : list event) :
  setInputDevice be i this = Some (true, this', t) ->
  exists d name,
    0 <= i /\
    nth_error (snd (cubeb_enumerate_devices be)) (Z.to_nat i) = Some d /\
    device_name d = Some name /\
    this' = set_currentDeviceName name
              (set_inputDeviceIndex i (set_inputDeviceId (devid d) this)) /\
    getCurrentInputDevice this' = name /\
    initialized this = true /\ isCapturing this = false /\
    t = [E_cubeb_enumerate_devices (context this);
         E_cubeb_device_collection_destroy (context this)].
Proof.
  intros Hrun.
  destruct (setInputDevice_success be i this this' t Hrun)
    as (d & name & Hfacts).
  exists d, name. exact Hfacts.
Qed.

Lemma setInputDevice_selects_indexed_device_witness :
  exists this' t,
    setInputDevice be_plain 1 fresh_handle = Some (true, this', t) /\
    getCurrentInputDevice this' = "hw:1"%string /\
    inputDeviceId this' = Some 2%nat.
Proof.
  assert (Hrun : setInputDevice be_plain 1 fresh_handle
                 = Some (true,
                         set_currentDeviceName "hw:1"
                           (set_inputDeviceIndex 1
                              (set_inputDeviceId (Some 2%nat) fresh_handle)),
                         [E_cubeb_enumerate_devices (Some 0%nat);
                          E_cubeb_device_collection_destroy (Some 0%nat)]))
    by (vm_compute; reflexivity).
  destruct (setInputDevice_selects_indexed_device _ _ _ _ _ Hrun)
    as (d & name & _ & Hnth & Hname & _ & Hcur & _).
  eexists; eexists. split; [ exact Hrun | ].
  split; reflexivity.
Defined.

Lemma device_names_named collection :
  forallb named collection = true ->
  Forall2 (fun d n => device_name d = Some n) collection (device_names collection).
Proof.
  induction collection as [ | d rest IH]; intros Hn.
  - constructor.
  - cbn [forallb] in Hn. apply andb_true_iff in Hn. destruct Hn as [Hd Hrest].
    unfold device_names. cbn [flat_map]. fold (device_names rest).
    unfold named in Hd. unfold device_name at 1.
    destruct (friendly_name d) as [n1 | ] eqn:Hf;
      [ | destruct (device_id d) as [n2 | ] eqn:Hi; [ | discriminate Hd ] ];
      cbn [app]; constructor; try (apply IH; exact Hrest);
      unfold device_name; rewrite Hf; try rewrite Hi; reflexivity.
Qed.

Lemma Forall2_nth_error_r {A B} (R : A -> B -> Prop) l1 l2 :
  Forall2 R l1 l2 ->
  forall i b, nth_error l2 i = Some b ->
              exists a, nth_error l1 i = Some a /\ R a b.
Proof.
  induction 1 as [ | a b l1 l2 Hab Hrest IH]; intros i y Hi.
  - destruct i; discriminate Hi.
  - destruct i as [ | i]; cbn [nth_error] in *.
    + inversion Hi; subst. exists a. split; [ reflexivity | exact Hab ].
    + apply IH. exact Hi.
Qed.

(** When every enumerated device carries a name, the list returned by
    [getAvailableInputDevices] has one entry per device, in backend order,
    and [setInputDevice] with the position of an entry in that list selects
    the device of that name. *)
Theorem listed_index_selects_listed_device
    (be : backend) (this : AudioCapture) :
  initialized this = true ->
  context this <> None ->
  isCapturing this = false ->
  fst (cubeb_enumerate_devices be) = CUBEB_OK ->
  forallb named (snd (cubeb_enumerate_devices be)) = true ->
  Z.of_nat (List.length (snd (cubeb_enumerate_devices be))) <= INT_MAX ->
  exists names t0,
    getAvailableInputDevices be this = Some (names, this, t0) /\
    List.length names = List.length (snd (cubeb_enumerate_devices be)) /\
    forall i name,
      nth_error names i = Some name ->
      exists this' t,
        setInputDevice be (Z.of_nat i) this = Some (true, this', t) /\
        getCurrentInputDevice this' = name.
Proof.
  unfold isCapturing. intros Hini Hctx Hcap Hok Hnamed Hmax.
  rewrite getAvailableInputDevices_eq.
  destruct (context this) as [c | ] eqn:Hc; [ | congruence ].
  rewrite Hini. cbn [negb orb is_null].
  destruct (cubeb_enumerate_devices be) as [r collection] eqn:Hen.
  cbn [fst snd] in *. subst r. cbn [Z.eqb CUBEB_OK negb].
  pose proof (device_names_named collection Hnamed) as Hall.
  eexists; eexists. split; [ reflexivity | ].
  split; [ symmetry; exact (Forall2_length Hall) | ].
  intros i name Hi.
  destruct (Forall2_nth_error_r _ _ _ Hall i name Hi) as (d & Hd & Hname).
  rewrite setInputDevice_eq, Hini, Hc, Hcap, Hen. cbn [negb orb is_null].
  cbn [Z.eqb CUBEB_OK negb].
  assert (Hlt : (i < List.length collection)%nat).
  { apply nth_error_Some. congruence. }
  replace (Z.of_nat i <? 0) with false by (symmetry; apply Z.ltb_ge; lia).
  replace (to_int (Z.of_nat (List.length collection)) <=? Z.of_nat i) with false.
  2:{ symmetry. apply Z.leb_gt. rewrite to_int_small; [ lia | ].
      unfold INT_MIN, INT_MAX in *. lia. }
  cbn [orb]. rewrite Nat2Z.id, Hd.
  unfold device_name in Hname. unfold getCurrentInputDevice.
  destruct (friendly_name d) as [n1 | ];
    [ | destruct (device_id d) as [n2 | ]; [ | discriminate Hname ] ];
    inversion Hname; subst; eexists; eexists; split; reflexivity.
Qed.

Lemma listed_index_selects_listed_device_witness :
  exists names t0,
    getAvailableInputDevices be_three fresh_handle = Some (names, fresh_handle, t0) /\
    List.length names = 3%nat /\
    forall i name,
      nth_error names i = Some name ->
      exists this' t,
        setInputDevice be_three (Z.of_nat i) fresh_handle = Some (true, this', t) /\
        getCurrentInputDevice this' = name.
Proof.
  apply (listed_index_selects_listed_device be_three fresh_handle).
  - reflexivity.
  - discriminate.
  - reflexivity.
  - reflexivity.
  - reflexivity.
  - vm_compute. discriminate.
Defined.

(** The listing and two selections on [be_three], evaluated. *)
Example listing_be_three :
  getAvailableInputDevices be_three fresh_handle
  = Some (["Built-in Mic"; "hw:1"; "USB Mic"]%string, fresh_handle,
          [E_cubeb_enumerate_devices (Some 0%nat);
           E_cubeb_device_collection_destroy (Some 0%nat)]).
Proof. vm_compute. reflexivity. Qed.

(** ** Starting on a chosen device *)

Lemma setInputDevice_trace be i this r this' t :
  setInputDevice be i this = Some (r, this', t) ->
  t = [] \/
  (t = [E_cubeb_enumerate_devices (context this)] /\
   fst (cubeb_enumerate_devices be) <> CUBEB_OK) \/
  (t = [E_cubeb_enumerate_devices (context this);
        E_cubeb_device_collection_destroy (context this)] /\
   fst (cubeb_enumerate_devices be) = CUBEB_OK).
Proof.
  rewrite setInputDevice_eq.
  destruct (negb (initialized this) || is_null (context this));
    [ intros H; inversion H; auto | ].
  destruct (capturing this); [ intros H; inversion H; auto | ].
  destruct (cubeb_enumerate_devices be) as [r0 collection]; cbv zeta. cbn [fst].
  destruct (r0 =? CUBEB_OK) eqn:Hr0; cbn [negb].
  2:{ apply Z.eqb_neq in Hr0. intros H; inversion H; auto. }
  apply Z.eqb_eq in Hr0.
  destruct ((i <? 0) || (to_int (Z.of_nat (List.length collection)) <=? i));
    [ intros H; inversion H; auto | ].
  destruct (nth_error collection (Z.to_nat i)) as [device | ]; [ | discriminate ].
  destruct (friendly_name device), (device_id device);
    try discriminate; intros H; inversion H; auto.
Qed.

Lemma startCapture_device
    (be : backend) (i : Z) (this this' : AudioCapture) (t : list event) :
  startCapture be i this = Some (true, this', t) ->
  In (E_cubeb_stream_init (context this) (inputDeviceId this')
        requested_params 4096) t /\
  inputDeviceId this' <> None /\
  (i < 0 ->
   inputDeviceId this' = inputDeviceId this /\
   getCurrentInputDevice this' = getCurrentInputDevice this) /\
  (0 <= i ->
   exists d name,
     nth_error (snd (cubeb_enumerate_devices be)) (Z.to_nat i) = Some d /\
     device_name d = Some name /\
     inputDeviceId this' = devid d /\
     inputDeviceIndex this' = i /\
     getCurrentInputDevice this' = name).
Proof.
  intros Hrun.
  assert (Hin : In (E_cubeb_stream_init (context this) (inputDeviceId this')
                      requested_params 4096) t).
  { destruct (startCapture_cases _ _ _ _ _ _ Hrun) as [H | [H | [H | H]]];
      try (destruct H as [H _]; discriminate H).
    tauto. }
  split; [ exact Hin | ].
  rewrite startCapture_eq in Hrun. unfold getCurrentInputDevice.
  destruct (negb (initialized this)); [ discriminate | ].
  destruct (capturing this); [ discriminate | ].
  destruct (Z.leb_spec 0 i) as [Hi | Hi].
  - destruct (setInputDevice be i this) as [[[ok this1] t1] | ] eqn:Hsel;
      [ | discriminate ].
    destruct ok; cbn [negb] in Hrun; [ | discriminate ].
    destruct (setInputDevice_success _ _ _ _ _ Hsel)
      as (d & name & _ & Hnth & Hname & Hthis1 & Hcur & _).
    destruct (inputDeviceId this1) as [dv | ] eqn:Hdev; cbn [is_null] in Hrun;
      [ | discriminate ].
    destruct (cubeb_stream_init be _ _ _ _) as [[r stm] p].
    destruct (negb (r =? CUBEB_OK)); [ discriminate | ].
    destruct (negb (cubeb_stream_start be =? CUBEB_OK)); [ discriminate | ].
    inversion Hrun; subst this' t; clear Hrun.
    cbn. rewrite Hdev. split; [ discriminate | ].
    split; [ lia | ]. intros _.
    exists d, name. rewrite Hthis1 in Hdev |- *. cbn in *.
    repeat split; auto.
  - destruct (inputDeviceId this) as [dv | ] eqn:Hdev; cbn [negb is_null] in Hrun;
      [ | discriminate ].
    destruct (cubeb_stream_init be _ _ _ _) as [[r stm] p].
    destruct (negb (r =? CUBEB_OK)); [ discriminate | ].
    destruct (negb (cubeb_stream_start be =? CUBEB_OK)); [ discriminate | ].
    inversion Hrun; subst this' t; clear Hrun.
    cbn. rewrite Hdev. split; [ discriminate | ].
    split; [ auto | lia ].
Qed.

(** A [startCapture] that returns true has created its stream on the device
    the handle ends up with, which is never null: the device selected
    before when the index is negative, and with a non-negative index the
    device at that index of the enumeration, whose name becomes the current
    device name. *)
Theorem startCapture_uses_chosen_device
    (be : backend) (i : Z) (this this' : AudioCapture) (t : list event) :
  startCapture be i this = Some (true, this', t) ->
  In (E_cubeb_stream_init (context this) (inputDeviceId this')
        requested_params 4096) t /\
  inputDeviceId this' <> None /\
  (i < 0 ->
   inputDeviceId this' = inputDeviceId this /\
   getCurrentInputDevice this' = getCurrentInputDevice this) /\
  (0 <= i ->
   exists d name,
     nth_error (snd (cubeb_enumerate_devices be)) (Z.to_nat i) = Some d /\
     device_name d = Some name /\
     inputDeviceId this' = devid d /\
     inputDeviceIndex this' = i /\
     getCurrentInputDevice this' = name).
Proof.
  intros Hrun.
  destruct (startCapture_device be i this this' t Hrun)
    as (Hin & Hdev & Hdefault & Hindexed).
  split; [ exact Hin | ]. split; [ exact Hdev | ].
  split; [ exact Hdefault | exact Hindexed ].
Qed.

Lemma startCapture_uses_chosen_device_witness :
  exists this' t,
    startCapture be_three 2 fresh_handle = Some (true, this', t) /\
    In (E_cubeb_stream_init (Some 0%nat) (Some 3%nat) requested_params 4096) t /\
    getCurrentInputDevice this' = "USB Mic"%string.
Proof.
  assert (Hrun : startCapture be_three 2 fresh_handle
                 = Some (true,
                         set_capturing true
                           (set_channelCount 2
                              (set_sampleRate 48000
                                 (set_stream (Some 9%nat)
                                    (set_currentDeviceName "USB Mic"
                                       (set_inputDeviceIndex 2
                                          (set_inputDeviceId (Some 3%nat)
                                             fresh_handle)))))),
                         [E_cubeb_enumerate_devices (Some 0%nat);
                          E_cubeb_device_collection_destroy (Some 0%nat);
                          E_cubeb_stream_init (Some 0%nat) (Some 3%nat)
                            requested_params 4096;
                          E_cubeb_stream_get_latency (Some 9%nat);
                          E_cubeb_stream_start (Some 9%nat)]))
    by (vm_compute; reflexivity).
  destruct (startCapture_uses_chosen_device _ _ _ _ _ Hrun) as (Hin & _).
  eexists; eexists. split; [ exact Hrun | ].
  split; [ exact Hin | reflexivity ].
Defined.

(** A [startCapture] that returns false leaves [isCapturing] as it was: it
    neither stops a running capture nor leaves a stopped handle running.
    On a capturing handle it changes nothing at all and calls nothing. *)
Theorem startCapture_failure_keeps_capturing_flag
    (be : backend) (i : Z) (this : AudioCapture) :
  (forall this' t,
      startCapture be i this = Some (false, this', t) ->
      isCapturing this' = isCapturing this) /\
  (isCapturing this = true -> startCapture be i this = Some (false, this, [])).
Proof.
  unfold isCapturing. split.
  - intros this' t Hrun. rewrite startCapture_eq in Hrun.
    destruct (negb (initialized this)); [ inversion Hrun; reflexivity | ].
    destruct (capturing this) eqn:Hc; [ inversion Hrun; subst; exact Hc | ].
    assert (Hsel : forall ok this1 t1,
               (if 0 <=? i then setInputDevice be i this
                else Some (true, this, [])) = Some (ok, this1, t1) ->
               capturing this1 = false).
    { intros ok this1 t1 Hs. destruct (0 <=? i).
      - apply setInputDevice_frame in Hs. destruct Hs as ((Hs & _) & _). congruence.
      - inversion Hs; subst. exact Hc. }
    destruct (if 0 <=? i then setInputDevice be i this else Some (true, this, []))
      as [[[ok this1] t1] | ]; [ | discriminate ].
    specialize (Hsel ok this1 t1 eq_refl).
    destruct (negb ok); [ inversion Hrun; subst; exact Hsel | ].
    destruct (is_null (inputDeviceId this1)); [ inversion Hrun; subst; exact Hsel | ].
    destruct (cubeb_stream_init be _ _ _ _) as [[r stm] p].
    destruct (negb (r =? CUBEB_OK)); [ inversion Hrun; subst; exact Hsel | ].
    destruct (negb (cubeb_stream_start be =? CUBEB_OK));
      [ inversion Hrun; subst; exact Hsel | discriminate ].
  - intros Hc. rewrite startCapture_eq, Hc.
    destruct (negb (initialized this)); reflexivity.
Qed.

Lemma startCapture_failure_keeps_capturing_flag_witness :
  isCapturing capturing_handle = true /\
  startCapture be_plain 1 capturing_handle = Some (false, capturing_handle, []).
Proof.
  split; [ reflexivity | ].
  apply (proj2 (startCapture_failure_keeps_capturing_flag be_plain 1 capturing_handle)).
  reflexivity.
Defined.

(** ** Streams across restarts *)

Lemma count_app f t1 t2 : count f (t1 ++ t2) = (count f t1 + count f t2)%nat.
Proof. unfold count. rewrite filter_app, length_app. reflexivity. Qed.

(** The calls of a [startCapture], after those of the device selection. *)
Lemma startCapture_trace be i this r this' t :
  startCapture be i this = Some (r, this', t) ->
  exists t1 t2,
    t = t1 ++ t2 /\
    (t1 = [] \/
     (t1 = [E_cubeb_enumerate_devices (context this)] /\
      fst (cubeb_enumerate_devices be) <> CUBEB_OK) \/
     (t1 = [E_cubeb_enumerate_devices (context this);
            E_cubeb_device_collection_destroy (context this)] /\
      fst (cubeb_enumerate_devices be) = CUBEB_OK)) /\
    let reply := stream_init_reply be this this' in
    let e_init := E_cubeb_stream_init (context this) (inputDeviceId this')
                    requested_params 4096 in
    let stm := snd (fst reply) in
    (t2 = [] /\ r = false \/
     t2 = [e_init] /\ r = false \/
     (t2 = [e_init; E_cubeb_stream_get_latency stm; E_cubeb_stream_start stm;
            E_cubeb_stream_destroy stm] /\
      r = false /\ cubeb_stream_start be <> CUBEB_OK) \/
     (t2 = [e_init; E_cubeb_stream_get_latency stm; E_cubeb_stream_start stm] /\
      r = true /\ stream this' = stm)).
Proof.
  unfold stream_init_reply. rewrite startCapture_eq. intros H.
  destruct (negb (initialized this));
    [ inversion H; subst; exists [], []; cbn; auto | ].
  destruct (capturing this);
    [ inversion H; subst; exists [], []; cbn; auto | ].
  destruct (if 0 <=? i then setInputDevice be i this else Some (true, this, []))
    as [[[ok this1] t1] | ] eqn:Hsel; [ | discriminate H ].
  assert (Hframe : stream this1 = stream this /\ context this1 = context this /\
                   (t1 = [] \/
                    (t1 = [E_cubeb_enumerate_devices (context this)] /\
                     fst (cubeb_enumerate_devices be) <> CUBEB_OK) \/
                    (t1 = [E_cubeb_enumerate_devices (context this);
                           E_cubeb_device_collection_destroy (context this)] /\
                     fst (cubeb_enumerate_devices be) = CUBEB_OK))).
  { destruct (0 <=? i).
    - pose proof (setInputDevice_trace _ _ _ _ _ _ Hsel).
      apply setInputDevice_frame in Hsel. tauto.
    - inversion Hsel; subst. auto. }
  destruct Hframe as (Hstm & Hctx & Ht1).
  destruct (negb ok);
    [ inversion H; subst; exists t, []; rewrite app_nil_r; cbn; auto | ].
  destruct (inputDeviceId this1) as [d | ] eqn:Hdev; cbn [is_null] in H;
    [ | inversion H; subst; exists t, []; rewrite app_nil_r; cbn; auto ].
  rewrite Hstm, Hctx in H.
  destruct (cubeb_stream_init be (stream this) (Some d) requested_params 4096)
    as [[r0 stm] p] eqn:Hinit.
  destruct (negb (r0 =? CUBEB_OK)).
  { inversion H; subst; clear H. eexists; eexists. split; [ reflexivity | ].
    split; [ exact Ht1 | ]. cbn. rewrite Hdev. auto. }
  destruct (cubeb_stream_start be =? CUBEB_OK) eqn:Hst; cbn [negb] in H;
    inversion H; subst; clear H; eexists; eexists;
    (split; [ reflexivity | ]); (split; [ exact Ht1 | ]);
    cbn; rewrite Hdev, Hinit; cbn.
  - right; right; right. auto.
  - apply Z.eqb_neq in Hst. right; right; left. auto.
Qed.

Lemma count_device_trace f be (ctx : cubeb) t1 :
  (t1 = [] \/
   (t1 = [E_cubeb_enumerate_devices ctx] /\
    fst (cubeb_enumerate_devices be) <> CUBEB_OK) \/
   (t1 = [E_cubeb_enumerate_devices ctx; E_cubeb_device_collection_destroy ctx] /\
    fst (cubeb_enumerate_devices be) = CUBEB_OK)) ->
  f (E_cubeb_enumerate_devices ctx) = false ->
  f (E_cubeb_device_collection_destroy ctx) = false ->
  count f t1 = 0%nat.
Proof.
  unfold count. intros [-> | [[-> _] | [-> _]]] H1 H2; cbn; rewrite ?H1, ?H2; reflexivity.
Qed.

(** Among the control-plane calls only a [startCapture] whose stream was
    created and then refused to start destroys a stream.  [stopCapture]
    keeps the stream pointer, and a [startCapture] that returns true
    replaces it by the new stream without destroying the one it held. *)
Theorem stream_destroyed_only_by_rejected_start
    (c : api_call) (this : AudioCapture)
    (r : api_result) (this' : AudioCapture) (t : list event) :
  api_step c this = Some (r, this', t) ->
  (count is_stream_destroy t <> 0%nat ->
   exists be i, c = Call_startCapture be i /\ r = R_bool false /\
                cubeb_stream_start be <> CUBEB_OK) /\
  (forall be, c = Call_stopCapture be -> stream this' = stream this) /\
  (forall be i, c = Call_startCapture be i -> r = R_bool true ->
                count is_stream_destroy t = 0%nat /\
                stream this' = snd (fst (stream_init_reply be this this'))).
Proof.
  intros Hstep.
  destruct c as [be i | be | be i | be | cb | f | enc];
    unfold api_step, bind, ret in Hstep.
  - destruct (startCapture be i this) as [[[b this1] t1] | ] eqn:Hrun;
      [ | discriminate ].
    inversion Hstep; subst; clear Hstep. rewrite app_nil_r.
    destruct (startCapture_trace _ _ _ _ _ _ Hrun)
      as (ta & tb & -> & Hta & Htb).
    cbv zeta in Htb.
    assert (Hca : count is_stream_destroy ta = 0%nat)
      by (eapply count_device_trace; [ exact Hta | reflexivity | reflexivity ]).
    rewrite count_app, Hca.
    split; [ | split ].
    + intros Hcount.
      destruct Htb as [[-> _] | [[-> _] | [(-> & -> & Hst) | (-> & _)]]];
        try (exfalso; apply Hcount; reflexivity).
      exists be, i. auto.
    + intros be0 Heq. discriminate Heq.
    + intros be0 i0 Heq Hr. inversion Heq; subst be0 i0. inversion Hr; subst b.
      destruct Htb as [[_ H] | [[_ H] | [(_ & H & _) | (-> & _ & Hs)]]];
        try discriminate H.
      split; [ reflexivity | exact Hs ].
  - rewrite stopCapture_eq in Hstep. inversion Hstep; subst; clear Hstep.
    rewrite app_nil_r.
    split; [ | split ].
    + intros Hcount. exfalso. apply Hcount.
      destruct (capturing this); [ destruct (stream this) | ]; reflexivity.
    + intros _ _. destruct (capturing this); reflexivity.
    + intros be0 i0 Heq. discriminate Heq.
  - destruct (setInputDevice be i this) as [[[b this1] t1] | ] eqn:Hrun;
      [ | discriminate ].
    inversion Hstep; subst; clear Hstep. rewrite app_nil_r.
    pose proof (setInputDevice_trace _ _ _ _ _ _ Hrun) as Ht.
    split; [ | split ].
    + intros Hcount. exfalso. apply Hcount.
      eapply count_device_trace; [ exact Ht | reflexivity | reflexivity ].
    + intros be0 Heq. discriminate Heq.
    + intros be0 i0 Heq. discriminate Heq.
  - rewrite getAvailableInputDevices_eq in Hstep.
    split; [ | split ]; try (intros be0 Heq; discriminate Heq);
      try (intros be0 i0 Heq; discriminate Heq).
    intros Hcount. exfalso. apply Hcount.
    destruct (negb (initialized this) || is_null (context this));
      [ inversion Hstep; reflexivity | ].
    destruct (cubeb_enumerate_devices be) as [r0 collection].
    destruct (negb (r0 =? CUBEB_OK)); inversion Hstep; reflexivity.
  - unfold setCallback, store in Hstep. inversion Hstep; subst.
    split; [ | split ]; try (intros be0 Heq; discriminate Heq);
      try (intros be0 i0 Heq; discriminate Heq).
    intros Hcount. exfalso. apply Hcount. reflexivity.
  - unfold setOutputFile, store in Hstep. inversion Hstep; subst.
    split; [ | split ]; try (intros be0 Heq; discriminate Heq);
      try (intros be0 i0 Heq; discriminate Heq).
    intros Hcount. exfalso. apply Hcount. reflexivity.
  - rewrite saveRecordedAudio_eq in Hstep.
    split; [ | split ]; try (intros be0 Heq; discriminate Heq);
      try (intros be0 i0 Heq; discriminate Heq).
    intros Hcount. exfalso. apply Hcount.
    destruct (recordedAudio this); [ inversion Hstep; reflexivity | ].
    cbv zeta in Hstep.
    destruct (convert_loop _ []) as [pcm | ]; [ | discriminate ].
    destruct (negb (DrWav.drwav_init_file_write enc _ _));
      [ inversion Hstep; reflexivity | ].
    destruct (to_size_t (channelCount this) =? 0); [ discriminate | ].
    inversion Hstep; reflexivity.
Qed.

(** A restart on [be_plain]: the second stream replaces the pointer to the
    first, which no call has destroyed. *)
Lemma stream_destroyed_only_by_rejected_start_witness :
  exists this1 t1 this2 t2 this3 t3,
    api_step (Call_startCapture be_plain (-1)) fresh_handle
    = Some (R_bool true, this1, t1) /\
    api_step (Call_stopCapture be_plain) this1 = Some (R_bool true, this2, t2) /\
    api_step (Call_startCapture be_three (-1)) this2
    = Some (R_bool true, this3, t3) /\
    stream this1 = Some 7%nat /\ stream this2 = Some 7%nat /\
    stream this3 = Some 9%nat /\
    count is_stream_destroy (t1 ++ t2 ++ t3) = 0%nat.
Proof.
  assert (H1 : api_step (Call_startCapture be_plain (-1)) fresh_handle
               = Some (R_bool true, capturing_handle,
                       [E_cubeb_stream_init (Some 0%nat) (Some 1%nat)
                          requested_params 4096;
                        E_cubeb_stream_get_latency (Some 7%nat);
                        E_cubeb_stream_start (Some 7%nat)]))
    by (vm_compute; reflexivity).
  assert (H2 : api_step (Call_stopCapture be_plain) capturing_handle
               = Some (R_bool true,
                       set_capturing false (set_shouldStop true capturing_handle),
                       [E_cubeb_stream_stop (Some 7%nat)]))
    by (vm_compute; reflexivity).
  assert (H3 : api_step (Call_startCapture be_three (-1))
                 (set_capturing false (set_shouldStop true capturing_handle))
               = Some (R_bool true,
                       set_stream (Some 9%nat) capturing_handle,
                       [E_cubeb_stream_init (Some 0%nat) (Some 1%nat)
                          requested_params 4096;
                        E_cubeb_stream_get_latency (Some 9%nat);
                        E_cubeb_stream_start (Some 9%nat)]))
    by (vm_compute; reflexivity).
  destruct (stream_destroyed_only_by_rejected_start _ _ _ _ _ H1) as (_ & _ & Hs1).
  destruct (stream_destroyed_only_by_rejected_start _ _ _ _ _ H2) as (_ & Hs2 & _).
  destruct (stream_destroyed_only_by_rejected_start _ _ _ _ _ H3) as (_ & _ & Hs3).
  destruct (Hs1 _ _ eq_refl eq_refl) as [Hc1 _].
  destruct (Hs3 _ _ eq_refl eq_refl) as [Hc3 _].
  pose proof (Hs2 _ eq_refl) as Hkeep.
  do 6 eexists.
  split; [ exact H1 | ]. split; [ exact H2 | ]. split; [ exact H3 | ].
  split; [ reflexivity | ]. split; [ exact Hkeep | ]. split; [ reflexivity | ].
  rewrite !count_app, Hc1, Hc3. reflexivity.
Defined.

(** ** Enumerations and their release *)

Lemma released_once_device_trace be (ctx : cubeb) t1 :
  (t1 = [] \/
   (t1 = [E_cubeb_enumerate_devices ctx] /\
    fst (cubeb_enumerate_devices be) <> CUBEB_OK) \/
   (t1 = [E_cubeb_enumerate_devices ctx; E_cubeb_device_collection_destroy ctx] /\
    fst (cubeb_enumerate_devices be) = CUBEB_OK)) ->
  released_once be t1.
Proof.
  unfold released_once, count.
  intros [-> | [[-> Hr] | [-> Hr]]]; cbn.
  - split; [ lia | ]. destruct (_ =? _); reflexivity.
  - apply Z.eqb_neq in Hr. rewrite Hr. split; [ lia | reflexivity ].
  - rewrite Hr. cbn. split; [ lia | reflexivity ].
Qed.

(** Every member function that enumerates the devices does so at most
    once per call, and releases the collection exactly once when the
    enumeration succeeded and never when it failed. *)
Theorem enumerated_collection_released_once (be : backend) :
  (forall cb this t,
      AudioCapture_ctor be cb = Some (this, t) -> released_once be t) /\
  (forall i this r this' t,
      setInputDevice be i this = Some (r, this', t) -> released_once be t) /\
  (forall i this r this' t,
      startCapture be i this = Some (r, this', t) -> released_once be t) /\
  (forall this r this' t,
      getAvailableInputDevices be this = Some (r, this', t) -> released_once be t).
Proof.
  split; [ | split; [ | split ] ].
  - intros cb this t. unfold AudioCapture_ctor. rewrite initializeCubeb_eq.
    unfold released_once, count.
    destruct (cubeb_init be) as [r0 ctx].
    destruct (negb (r0 =? CUBEB_OK)).
    { intros H; inversion H; subst. cbn.
      split; [ lia | ]. destruct (_ =? _); reflexivity. }
    destruct (cubeb_enumerate_devices be) as [r1 collection]. cbn [fst].
    destruct (r1 =? CUBEB_OK); cbn [negb].
    + destruct collection; intros H; inversion H; subst; cbn; split; lia.
    + intros H; inversion H; subst; cbn; split; lia.
  - intros i this r this' t H.
    eapply released_once_device_trace. exact (setInputDevice_trace _ _ _ _ _ _ H).
  - intros i this r this' t H.
    destruct (startCapture_trace _ _ _ _ _ _ H) as (t1 & t2 & -> & Ht1 & Ht2).
    pose proof (released_once_device_trace be _ _ Ht1) as [Hle Heq].
    cbv zeta in Ht2.
    assert (H2 : count is_enumerate t2 = 0%nat /\
                 count is_collection_destroy t2 = 0%nat).
    { destruct Ht2 as [[-> _] | [[-> _] | [(-> & _) | (-> & _)]]];
        split; reflexivity. }
    destruct H2 as [H2a H2b].
    unfold released_once. rewrite !count_app, H2a, H2b, !Nat.add_0_r.
    split; assumption.
  - intros this r this' t. rewrite getAvailableInputDevices_eq.
    unfold released_once, count.
    destruct (negb (initialized this) || is_null (context this)).
    { intros H; inversion H; subst. cbn.
      split; [ lia | ]. destruct (_ =? _); reflexivity. }
    destruct (cubeb_enumerate_devices be) as [r1 collection]. cbn [fst].
    destruct (r1 =? CUBEB_OK); cbn [negb];
      intros H; inversion H; subst; cbn; split; lia.
Qed.

(** ** Destruction and moves *)

Lemma cleanup_eq this :
  cleanup this =
  Some (tt,
        set_initialized false
          (set_inputDeviceId None (set_context None (set_stream None this))),
        match stream this with
        | Some _ => [E_cubeb_stream_stop (stream this);
                     E_cubeb_stream_destroy (stream this)]
        | None => []
        end
        ++ match context this with
           | Some _ => [E_cubeb_destroy (context this)]
           | None => []
           end).
Proof.
  unfold cleanup, bind, ret, load, store, emit.
  destruct this as [ctx stm dev cb cap ss sr cc name idx ini rec out].
  destruct stm, ctx; reflexivity.
Qed.

Lemma AudioCapture_dtor_eq be this :
  AudioCapture_dtor be this =
  Some (tt,
        set_initialized false
          (set_inputDeviceId None
             (set_context None
                (set_stream None
                   (if capturing this
                    then set_capturing false (set_shouldStop true this)
                    else this)))),
        (if capturing this then
           match stream this with
           | Some _ => [E_cubeb_stream_stop (stream this)]
           | None => []
           end
         else [])
        ++ match stream this with
           | Some _ => [E_cubeb_stream_stop (stream this);
                        E_cubeb_stream_destroy (stream this)]
           | None => []
           end
        ++ match context this with
           | Some _ => [E_cubeb_destroy (context this)]
           | None => []
           end).
Proof.
  unfold AudioCapture_dtor, bind. rewrite stopCapture_eq, cleanup_eq.
  destruct (capturing this); reflexivity.
Qed.

(** The destructor always returns.  It leaves the handle not capturing,
    uninitialised and with null stream, context and device; the stream, if
    the handle held one, is stopped and destroyed exactly once, then the
    context, if it held one, is destroyed exactly once, and nothing is
    destroyed that the handle did not hold. *)
Theorem destructor_releases_each_resource_once
    (be : backend) (this : AudioCapture) :
  exists this' t,
    AudioCapture_dtor be this = Some (tt, this', t) /\
    isCapturing this' = false /\ initialized this' = false /\
    stream this' = None /\ context this' = None /\ inputDeviceId this' = None /\
    count is_stream_destroy t = (if is_null (stream this) then 0 else 1)%nat /\
    count is_context_destroy t = (if is_null (context this) then 0 else 1)%nat /\
    (forall e, In e t -> is_stream_destroy e = true ->
               e = E_cubeb_stream_destroy (stream this)) /\
    (forall e, In e t -> is_context_destroy e = true ->
               e = E_cubeb_destroy (context this)) /\
    (forall t1 t2, t = t1 ++ E_cubeb_destroy (context this) :: t2 ->
                   t2 = [] /\ count is_context_destroy t1 = 0%nat).
Proof.
  rewrite AudioCapture_dtor_eq. eexists; eexists.
  split; [ reflexivity | ].
  unfold isCapturing.
  destruct this as [ctx stm dev cb cap ss sr cc name idx ini rec out]; cbn.
  repeat split.
  - destruct cap; reflexivity.
  - destruct cap, stm, ctx; reflexivity.
  - destruct cap, stm, ctx; reflexivity.
  - intros e HIn He. destruct cap, stm, ctx; cbn in HIn;
      repeat (destruct HIn as [<- | HIn]; try discriminate He; try reflexivity);
      destruct HIn.
  - intros e HIn He. destruct cap, stm, ctx; cbn in HIn;
      repeat (destruct HIn as [<- | HIn]; try discriminate He; try reflexivity);
      destruct HIn.
  - destruct cap, stm, ctx; cbn in H;
      repeat (destruct t1 as [ | ? t1]; cbn in H; try discriminate H;
              try (injection H as <-; try reflexivity));
      try (inversion H; subst; reflexivity).
  - destruct cap, stm, ctx; cbn in H;
      repeat (destruct t1 as [ | ? t1]; cbn in H; try discriminate H);
      inversion H; subst; reflexivity.
Qed.

Lemma destructor_releases_each_resource_once_witness :
  exists this' t,
    AudioCapture_dtor be_plain capturing_handle = Some (tt, this', t) /\
    isCapturing this' = false /\ stream this' = None /\ context this' = None /\
    count is_stream_destroy t = 1%nat /\ count is_context_destroy t = 1%nat /\
    t = [E_cubeb_stream_stop (Some 7%nat); E_cubeb_stream_stop (Some 7%nat);
         E_cubeb_stream_destroy (Some 7%nat); E_cubeb_destroy (Some 0%nat)].
Proof.
  destruct (destructor_releases_each_resource_once be_plain capturing_handle)
    as (this' & t & Hrun & Hcap & _ & Hstm & Hctx & _ & Hsd & Hcd & _).
  exists this', t.
  assert (Ht : t = [E_cubeb_stream_stop (Some 7%nat);
                    E_cubeb_stream_stop (Some 7%nat);
                    E_cubeb_stream_destroy (Some 7%nat);
                    E_cubeb_destroy (Some 0%nat)]).
  { assert (Hc : AudioCapture_dtor be_plain capturing_handle
                 = Some (tt,
                         set_initialized false
                           (set_inputDeviceId None
                              (set_context None
                                 (set_stream None
                                    (set_capturing false
                                       (set_shouldStop true capturing_handle))))),
                         [E_cubeb_stream_stop (Some 7%nat);
                          E_cubeb_stream_stop (Some 7%nat);
                          E_cubeb_stream_destroy (Some 7%nat);
                          E_cubeb_destroy (Some 0%nat)]))
      by (vm_compute; reflexivity).
    rewrite Hc in Hrun. inversion Hrun. reflexivity. }
  repeat split; assumption.
Defined.

(** A moved-from handle is inert: the move constructor hands the whole
    state to the new object, and on the object moved from the destructor,
    [startCapture], [setInputDevice] and [getAvailableInputDevices] make no
    backend call, whatever the moved-out members hold. *)
Theorem moved_from_handle_is_inert (mf : moved_from) (other : AudioCapture) :
  fst (AudioCapture_move_ctor mf other) = other /\
  let old := snd (AudioCapture_move_ctor mf other) in
  recordedAudio old = [] /\
  (forall be, exists old', AudioCapture_dtor be old = Some (tt, old', [])) /\
  (forall be i, startCapture be i old = Some (false, old, [])) /\
  (forall be i, setInputDevice be i old = Some (false, old, [])) /\
  (forall be, getAvailableInputDevices be old = Some ([], old, [])).
Proof.
  split; [ destruct other; reflexivity | ].
  cbv zeta. cbn [snd AudioCapture_move_ctor].
  split; [ reflexivity | ].
  split; [ | split; [ | split ] ].
  - intros be. rewrite AudioCapture_dtor_eq. cbn.
    destruct (capturing other); eexists; reflexivity.
  - intros be i. rewrite startCapture_eq. reflexivity.
  - intros be i. rewrite setInputDevice_eq. reflexivity.
  - intros be. rewrite getAvailableInputDevices_eq. reflexivity.
Qed.

(** Move assignment onto a distinct object always returns.  It first
    releases what the target held, with the very calls of the target's
    destructor; afterwards the target is the source field for field and
    the source is inert: its destructor makes no backend call. *)
Theorem move_assignment_releases_then_takes
    (be : backend) (mf : moved_from) (other this : AudioCapture) :
  exists other' this' t,
    AudioCapture_move_assign be mf other this = Some (other', this', t) /\
    this' = other /\
    (exists d, AudioCapture_dtor be this = Some (tt, d, t)) /\
    (forall be', exists d', AudioCapture_dtor be' other' = Some (tt, d', [])).
Proof.
  assert (Hinert : forall be', exists d',
             AudioCapture_dtor be' (moved_out mf (mf_recordedAudio mf) other)
             = Some (tt, d', [])).
  { intros be'. rewrite AudioCapture_dtor_eq. cbn.
    destruct (capturing other); eexists; reflexivity. }
  unfold AudioCapture_move_assign, AudioCapture_dtor, stopCapture, cleanup,
    bind, ret, load, store, emit.
  destruct this as [ctx stm dev cb cap ss sr cc name idx ini rec out].
  destruct other as [ctx' stm' dev' cb' cap' ss' sr' cc' name' idx' ini' rec' out'].
  destruct cap, stm, ctx; cbn;
    try destruct (negb (cubeb_stream_stop be =? CUBEB_OK)); cbn;
    (do 3 eexists; split; [ reflexivity | ]; split; [ reflexivity | ];
     split; [ eexists; reflexivity | exact Hinert ]).
Qed.

(** ** Backend state notifications *)

(** A [Stopped] or [Error] notification leaves the handle not capturing
    and changes nothing else, and a second one changes nothing at all;
    [Started] and [Drained] change nothing.  After [Stopped] or [Error] a
    [stopCapture] returns true without calling the backend and without
    raising the stop flag. *)
Theorem stateCallback_stop_and_error (capture : AudioCapture) :
  (forall state,
      state = CUBEB_STATE_STOPPED \/ state = CUBEB_STATE_ERROR ->
      let capture' := set_capturing false capture in
      stateCallback (Some capture) state = Some capture' /\
      isCapturing capture' = false /\
      (forall state',
          state' = CUBEB_STATE_STOPPED \/ state' = CUBEB_STATE_ERROR ->
          stateCallback (Some capture') state' = Some capture') /\
      (forall be, stopCapture be capture' = Some (true, capture', [])) /\
      shouldStop capture' = shouldStop capture) /\
  (forall state,
      state = CUBEB_STATE_STARTED \/ state = CUBEB_STATE_DRAINED ->
      stateCallback (Some capture) state = Some capture).
Proof.
  split.
  - intros state Hs. cbv zeta.
    split; [ destruct Hs as [-> | ->]; reflexivity | ].
    split; [ reflexivity | ].
    split; [ intros state' [-> | ->]; reflexivity | ].
    split; [ | reflexivity ].
    intros be. rewrite stopCapture_eq. reflexivity.
  - intros state [-> | ->]; reflexivity.
Qed.

Lemma stateCallback_stop_and_error_witness :
  stateCallback (Some capturing_handle) CUBEB_STATE_ERROR
  = Some (set_capturing false capturing_handle) /\
  stopCapture be_plain (set_capturing false capturing_handle)
  = Some (true, set_capturing false capturing_handle, []) /\
  stateCallback (Some capturing_handle) CUBEB_STATE_DRAINED = Some capturing_handle.
Proof.
  destruct (stateCallback_stop_and_error capturing_handle) as [Hstop Hkeep].
  destruct (Hstop CUBEB_STATE_ERROR (or_intror eq_refl)) as (H1 & _ & _ & H2 & _).
  split; [ exact H1 | ].
  split; [ exact (H2 be_plain) | ].
  exact (Hkeep CUBEB_STATE_DRAINED (or_intror eq_refl)).
Defined.

(** ** Delivery to the user callback *)

Lemma dataCallback_delivery_trace
    (capture : AudioCapture) (b : list float) (F : Z) :
  Z.of_nat (List.length b) = F * channelCount capture ->
  F * channelCount capture <= INT_MAX ->
  dataCallback (Some capture) (Some b) F
  = Some (F,
          Some (set_recordedAudio (recordedAudio capture ++ chars_of_floats b)
                  capture),
          match callback capture with
          | Some f => [E_callback f b (to_int F) (getSampleRate capture)
                         (getChannelCount capture)]
          | None => []
          end).
Proof.
  intros Hlen Hmax.
  destruct (dataCallback_delivery capture b F Hlen Hmax) as [t Hd].
  rewrite Hd. f_equal. f_equal.
  unfold dataCallback in Hd. rewrite dataCallback_capture_eq in Hd.
  cbv zeta in Hd.
  destruct (negb (in_long (F * channelCount capture))); [ discriminate | ].
  destruct ((to_int (F * channelCount capture) <? 0)
            || (Z.of_nat (List.length b) <? to_int (F * channelCount capture)));
    [ discriminate | ].
  inversion Hd as [[Hrec Ht]]. clear Hd Hrec.
  rewrite <- Hlen.
  rewrite to_int_small by (unfold INT_MIN, INT_MAX in *; lia).
  rewrite Nat2Z.id, firstn_all. reflexivity.
Qed.

(** A delivery of a buffer of [F] frames with the handle's channel count
    invokes the user callback exactly once, with exactly the samples that
    are appended to the recording, the frame count and the stored sample
    rate and channel count; with an empty callback slot nothing is invoked
    and the samples are recorded all the same.  Nothing but the recording
    changes. *)
Theorem dataCallback_forwards_what_it_records
    (capture : AudioCapture) (b : list float) (F : Z) :
  Z.of_nat (List.length b) = F * channelCount capture ->
  F * channelCount capture <= INT_MAX ->
  dataCallback (Some capture) (Some b) F
  = Some (F,
          Some (set_recordedAudio (recordedAudio capture ++ chars_of_floats b)
                  capture),
          match callback capture with
          | Some f => [E_callback f b (to_int F) (getSampleRate capture)
                         (getChannelCount capture)]
          | None => []
          end).
Proof.
  intros Hlen Hmax.
  rewrite (dataCallback_delivery_trace capture b F Hlen Hmax).
  reflexivity.
Qed.

Lemma dataCallback_forwards_what_it_records_witness :
  dataCallback (Some capturing_handle) (Some [f_one; f_half; f_tenth; f_one]) 2
  = Some (2,
          Some (set_recordedAudio
                  (chars_of_floats [f_one; f_half; f_tenth; f_one])
                  capturing_handle),
          [E_callback 0 [f_one; f_half; f_tenth; f_one] 2 48000 2]).
Proof.
  apply (dataCallback_forwards_what_it_records capturing_handle
           [f_one; f_half; f_tenth; f_one] 2).
  - reflexivity.
  - vm_compute. discriminate.
Defined.

(** ** Export *)

(** [saveRecordedAudio] never changes the handle.  It opens at most one
    file, under the name computed from the output file name, for 16-bit
    PCM; it writes only to a file it has opened and then closes it; and it
    returns true exactly when the file was opened and the encoder reported
    a non-zero number of frames written. *)
Theorem saveRecordedAudio_outcome
    (enc : DrWav.encoder) (this : AudioCapture)
    (r : bool) (this' : AudioCapture) (t : list event) :
  saveRecordedAudio enc this = Some (r, this', t) ->
  this' = this /\
  ((t = [] /\ r = false /\ recordedAudio this = [])
   \/
   exists fmt,
     DrWav.bitsPerSample fmt = 16 /\
     DrWav.channels fmt = to_uint32 (channelCount this) /\
     DrWav.sampleRate fmt = to_uint32 (sampleRate this) /\
     let path := wav_file_name (outputFile this) in
     ((t = [E_drwav_init_file_write path fmt] /\ r = false /\
       DrWav.drwav_init_file_write enc path fmt = false)
      \/
      exists frames pcm,
        t = [E_drwav_init_file_write path fmt;
             E_drwav_write_pcm_frames frames pcm; E_drwav_uninit] /\
        DrWav.drwav_init_file_write enc path fmt = true /\
        (r = true <-> DrWav.drwav_write_pcm_frames enc frames pcm <> 0))).
Proof.
  rewrite saveRecordedAudio_eq.
  destruct (recordedAudio this) as [ | c rest].
  { intros H; inversion H; subst. split; [ reflexivity | left; auto ]. }
  cbv zeta.
  destruct (convert_loop _ []) as [pcm | ]; [ | discriminate ].
  destruct (DrWav.drwav_init_file_write enc _ _) eqn:Hopen; cbn [negb].
  - destruct (to_size_t (channelCount this) =? 0); [ discriminate | ].
    intros H; inversion H; subst; clear H.
    split; [ reflexivity | right ].
    match goal with
    | |- context [E_drwav_init_file_write _ ?f] => exists f
    end.
    split; [ reflexivity | ]. split; [ reflexivity | ].
    split; [ reflexivity | ]. cbv zeta. right.
    eexists; eexists. split; [ reflexivity | ]. split; [ exact Hopen | ].
    match goal with
    | |- context [DrWav.drwav_write_pcm_frames enc ?f ?p =? 0] =>
        destruct (Z.eqb_spec (DrWav.drwav_write_pcm_frames enc f p) 0)
          as [He | He]
    end; cbn [negb]; split; intros Hx; congruence.
  - intros H; inversion H; subst; clear H.
    split; [ reflexivity | right ].
    match goal with
    | |- context [E_drwav_init_file_write _ ?f] => exists f
    end.
    split; [ reflexivity | ]. split; [ reflexivity | ].
    split; [ reflexivity | ]. cbv zeta. left. auto.
Qed.

Lemma saveRecordedAudio_outcome_witness :
  exists this' t,
    saveRecordedAudio enc_plain recorded_handle = Some (true, this', t) /\
    this' = recorded_handle.
Proof.
  assert (Hrun : saveRecordedAudio enc_plain recorded_handle
                 = Some (true, recorded_handle,
                         [E_drwav_init_file_write "captured-audio.wav"
                            (DrWav.mk_format DrWav.drwav_container_riff
                               DrWav.DR_WAVE_FORMAT_PCM 1 44100 16);
                          E_drwav_write_pcm_frames 2 [32767; 16383];
                          E_drwav_uninit]))
    by (vm_compute; reflexivity).
  destruct (saveRecordedAudio_outcome _ _ _ _ _ Hrun) as [Hsame _].
  eexists; eexists. split; [ exact Hrun | exact Hsame ].
Defined.

(** A whole session exported: after a successful [startCapture], [N]
    deliveries of [F] frames of [C] channels and a [stopCapture],
    [saveRecordedAudio] hands the encoder, as [N * F] frames of [C]
    samples, the conversion of exactly the delivered samples in delivery
    order, under the session's sample rate, whatever the handle had
    recorded before the session. *)
Theorem session_export_round_trip
    (be be' : backend) (enc : DrWav.encoder) (i : Z)
    (this this1 : AudioCapture) (t : list event)
    (F : Z) (buffers : list (list float)) :
  startCapture be i this = Some (true, this1, t) ->
  let C := getChannelCount this1 in
  0 < C -> 0 < F -> F * C <= INT_MAX ->
  Forall (fun b => Z.of_nat (List.length b) = F * C) buffers ->
  buffers <> [] ->
  Z.of_nat (List.length (List.concat buffers)) <= INT_MAX ->
  exists this2 this3 t3 pcm,
    deliver this1 buffers F = Some (repeat F (List.length buffers), this2) /\
    stopCapture be' this2 = Some (true, this3, t3) /\
    Forall2 (fun x z => spec_pcm (Float32.value x) z /\ -32767 <= z <= 32767)
            (List.concat buffers) pcm /\
    let path := wav_file_name (outputFile this3) in
    let fmt :=
      {| DrWav.container := DrWav.drwav_container_riff;
         DrWav.format := DrWav.DR_WAVE_FORMAT_PCM;
         DrWav.channels := C;
         DrWav.sampleRate := to_uint32 (getSampleRate this1);
         DrWav.bitsPerSample := 16 |} in
    let frames := Z.of_nat (List.length buffers) * F in
    saveRecordedAudio enc this3 =
    (if DrWav.drwav_init_file_write enc path fmt then
       Some (negb (DrWav.drwav_write_pcm_frames enc frames pcm =? 0), this3,
             [E_drwav_init_file_write path fmt;
              E_drwav_write_pcm_frames frames pcm; E_drwav_uninit])
     else Some (false, this3, [E_drwav_init_file_write path fmt])).
Proof.
  intros Hrun C HC HF Hmax Hbuf Hne Htotal.
  unfold getChannelCount in C.
  assert (Hrec : recordedAudio this1 = [] /\ capturing this1 = true).
  { destruct (startCapture_cases _ _ _ _ _ _ Hrun) as [H | [H | [H | H]]];
      try (destruct H as [H _]; discriminate H).
    tauto. }
  destruct Hrec as [Hrec Hcap].
  pose proof (deliver_session this1 buffers F Hbuf Hmax) as Hdel.
  rewrite Hrec in Hdel. cbn [app] in Hdel.
  set (this2 := set_recordedAudio (chars_of_floats (List.concat buffers)) this1) in *.
  set (this3 := set_capturing false (set_shouldStop true this2)).
  assert (Hstop : stopCapture be' this2
                  = Some (true, this3,
                          match stream this2 with
                          | Some _ => [E_cubeb_stream_stop (stream this2)]
                          | None => []
                          end)).
  { rewrite stopCapture_eq. unfold this2. cbn. rewrite Hcap. reflexivity. }
  assert (Hsum : Z.of_nat (List.length (List.concat buffers))
                 = Z.of_nat (List.length buffers) * (F * C)).
  { clear - Hbuf. induction Hbuf as [ | b rest Hb Hrest IH].
    - reflexivity.
    - cbn [List.concat List.length].
      rewrite length_app, Nat2Z.inj_add, Hb, IH, Nat2Z.inj_succ. ring. }
  assert (Hpos : 0 < Z.of_nat (List.length (List.concat buffers))).
  { rewrite Hsum. destruct buffers; [ congruence | ].
    cbn [List.length]. rewrite Nat2Z.inj_succ. nia. }
  assert (Hrec3 : recordedAudio this3 = chars_of_floats (List.concat buffers))
    by reflexivity.
  destruct (export_converts enc this3) as (pcm & Hall & Hsave & _).
  - rewrite Hrec3. intros Hnil. apply (f_equal (@List.length byte)) in Hnil.
    rewrite chars_of_floats_length in Hnil. cbn in Hnil. lia.
  - rewrite Hrec3, chars_of_floats_length. unfold sizeof_float.
    rewrite Nat2Z.inj_mul. change (Z.of_nat 4) with 4.
    rewrite Z.mul_comm, Z.div_mul by lia. exact Htotal.
  - change (channelCount this3) with C. unfold INT_MAX in *. nia.
  - rewrite Hrec3, floats_of_chars_of_floats in Hall.
    exists this2, this3. eexists. exists pcm.
    split; [ exact Hdel | ]. split; [ exact Hstop | ].
    split; [ exact Hall | ].
    cbv zeta in Hsave |- *. rewrite Hsave.
    change (channelCount this3) with C.
    change (sampleRate this3) with (sampleRate this1).
    unfold getSampleRate.
    assert (Hfr : Z.of_nat (List.length pcm) / C
                  = Z.of_nat (List.length buffers) * F).
    { rewrite <- (Forall2_length Hall), Hsum.
      rewrite Z.mul_assoc, Z.div_mul by lia. reflexivity. }
    rewrite Hfr. reflexivity.
Qed.

(** ** The output file name *)

Lemma find_last_of_dot_wav stem :
  find_last_of "."%char (stem ++ ".wav") = Some (String.length stem).
Proof.
  induction stem as [ | a stem IH].
  - reflexivity.
  - cbn [append find_last_of String.length]. rewrite IH. reflexivity.
Qed.

Lemma substring_skip stem k n rest :
  substring (String.length stem + k) n (stem ++ rest) = substring k n rest.
Proof.
  induction stem as [ | a stem IH].
  - reflexivity.
  - cbn [append String.length Nat.add substring]. exact IH.
Qed.

Lemma length_append s1 s2 :
  String.length (s1 ++ s2) = (String.length s1 + String.length s2)%nat.
Proof.
  induction s1 as [ | a s1 IH]; cbn [append String.length].
  - reflexivity.
  - rewrite IH. reflexivity.
Qed.

Lemma wav_file_name_dot_wav stem :
  wav_file_name (stem ++ ".wav") = (stem ++ ".wav")%string.
Proof.
  unfold wav_file_name. rewrite find_last_of_dot_wav.
  replace (S (String.length stem)) with (String.length stem + 1)%nat by lia.
  rewrite substring_skip, length_append.
  replace (String.length stem + String.length ".wav" - (String.length stem + 1))%nat
    with 3%nat by (cbn [String.length]; lia).
  reflexivity.
Qed.

(** The name handed to the encoder: a name that ends in [.wav] is kept as
    it is; a name without any dot, other than the bare name [wav], gets
    [.wav] appended; in every case the result is either the given name or
    some prefix of it followed by [.wav], and computing the name again
    from the result changes nothing. *)
Theorem wav_file_name_normalises (outputFile : string) :
  (forall stem, outputFile = (stem ++ ".wav")%string ->
                wav_file_name outputFile = outputFile) /\
  (find_last_of "."%char outputFile = None -> outputFile <> "wav"%string ->
   wav_file_name outputFile = (outputFile ++ ".wav")%string) /\
  (wav_file_name outputFile = outputFile \/
   exists n, wav_file_name outputFile
             = (substring 0 n outputFile ++ ".wav")%string) /\
  wav_file_name (wav_file_name outputFile) = wav_file_name outputFile.
Proof.
  assert (Hshape : wav_file_name outputFile = outputFile \/
                   exists n, wav_file_name outputFile
                             = (substring 0 n outputFile ++ ".wav")%string).
  { unfold wav_file_name.
    destruct (find_last_of "."%char outputFile) as [i | ].
    + destruct (String.eqb _ "wav"); [ left; reflexivity | ].
      right. exists i. reflexivity.
    + destruct (String.eqb outputFile "wav"); [ left; reflexivity | ].
      right. exists (String.length outputFile).
      f_equal. clear. induction outputFile as [ | a s IH].
      * reflexivity.
      * cbn [String.length substring]. f_equal. exact IH. }
  split; [ | split; [ | split ] ].
  - intros stem ->. apply wav_file_name_dot_wav.
  - intros Hdot Hne. unfold wav_file_name. rewrite Hdot.
    destruct (String.eqb_spec outputFile "wav"); [ congruence | reflexivity ].
  - exact Hshape.
  - destruct Hshape as [H | [n H]]; rewrite H.
    + exact H.
    + apply wav_file_name_dot_wav.
Qed.

Lemma wav_file_name_normalises_witness :
  wav_file_name "take1.wav" = "take1.wav"%string /\
  wav_file_name "take1" = "take1.wav"%string.
Proof.
  destruct (wav_file_name_normalises "take1.wav") as [Hkeep _].
  destruct (wav_file_name_normalises "take1") as (_ & Hadd & _).
  split.
  - exact (Hkeep "take1"%string eq_refl).
  - apply Hadd; [ reflexivity | discriminate ].
Defined.

(** Names on which the rule is less obvious: the extension is replaced, a
    dot in a directory name counts as the last dot, and the bare name
    [wav] is left without extension. *)
Example wav_file_name_corner_cases :
  wav_file_name "out.mp3" = "out.wav"%string /\
  wav_file_name "rec.v2/take" = "rec.wav"%string /\
  wav_file_name "wav" = "wav"%string /\
  wav_file_name "" = ".wav"%string.
Proof. repeat split. Qed.

(** ** Saturation and symmetry of the conversion *)

Lemma one_le s m e :
  SFleb Float32.lit_1_0f (S754_finite s m e) = true ->
  s = false /\ inside m e = false.
Proof.
  unfold SFleb, SFcompare, Float32.lit_1_0f, inside.
  destruct s; [ discriminate | ].
  rewrite (Z.compare_antisym e (-23)), (compare_cont_antisym m 8388608).
  destruct (e ?= -23); cbn [CompOpp]; try discriminate; auto.
  destruct (Pos.compare_cont Eq m 8388608); cbn [CompOpp]; try discriminate; auto.
Qed.

Lemma le_minus_one s m e :
  SFleb (S754_finite s m e) Float32.lit_m1_0f = true ->
  s = true /\ inside m e = false.
Proof.
  unfold SFleb, SFcompare, Float32.lit_m1_0f, inside.
  destruct s; [ | discriminate ].
  destruct (e ?= -23); cbn [CompOpp]; try discriminate; auto.
  destruct (Pos.compare_cont Eq m 8388608); cbn [CompOpp]; try discriminate; auto.
Qed.

(** Samples at or beyond full scale saturate: every sample not below
    [1.0f], positive infinity and NaN included, converts to 32767, every
    sample not above [-1.0f], negative infinity included, to -32767, and
    both zeros convert to 0. *)
Theorem pcm_of_float_saturates (x : float) :
  (SFleb Float32.lit_1_0f (Float32.value x) = true \/ Float32.value x = S754_nan ->
   pcm_of_float x = Some 32767) /\
  (SFleb (Float32.value x) Float32.lit_m1_0f = true ->
   pcm_of_float x = Some (-32767)) /\
  (forall s, Float32.value x = S754_zero s -> pcm_of_float x = Some 0).
Proof.
  rewrite pcm_of_float_eq.
  destruct (Float32.value x) as [s | s | | s m e].
  - split; [ intros [H | H]; [ destruct s | ]; discriminate H | ].
    split; [ intros H; destruct s; discriminate H | ].
    intros s' _. destruct s; reflexivity.
  - split; [ | split ].
    + intros [H | H]; [ | discriminate H ].
      destruct s; [ discriminate H | vm_compute; reflexivity ].
    + intros H. destruct s; [ vm_compute; reflexivity | discriminate H ].
    + intros s' H. discriminate H.
  - split; [ | split ].
    + intros _. vm_compute. reflexivity.
    + intros H. discriminate H.
    + intros s' H. discriminate H.
  - rewrite clamp_code_finite. split; [ | split ].
    + intros [H | H]; [ | discriminate H ].
      apply one_le in H. destruct H as [-> ->]. vm_compute. reflexivity.
    + intros H. apply le_minus_one in H. destruct H as [-> ->].
      vm_compute. reflexivity.
    + intros s' H. discriminate H.
Qed.

Lemma pcm_of_float_saturates_witness :
  pcm_of_float f_one = Some 32767 /\ pcm_of_float f_minus_two = Some (-32767).
Proof.
  split.
  - apply (proj1 (pcm_of_float_saturates f_one)). left. reflexivity.
  - apply (proj1 (proj2 (pcm_of_float_saturates f_minus_two))). reflexivity.
Defined.

Lemma binary_round_aux_opp s m e l :
  binary_round_aux 24 128 (negb s) m e l
  = SFopp (binary_round_aux 24 128 s m e l).
Proof.
  unfold binary_round_aux.
  destruct (shr_fexp 24 128 m e l) as [r1 e1].
  destruct (shr_fexp 24 128 _ e1 loc_Exact) as [r2 e2].
  destruct (shr_m r2); try reflexivity.
  destruct (e2 <=? 128 - 24); reflexivity.
Qed.

Lemma mul_opp c :
  c <> S754_nan ->
  Float32.mul (SFopp c) Float32.lit_32767_0f
  = SFopp (Float32.mul c Float32.lit_32767_0f).
Proof.
  unfold Float32.mul, Float32.lit_32767_0f.
  destruct c as [s | s | | s m e]; intros Hc; cbn [SFopp SFmul];
    try congruence; try (destruct s; reflexivity).
  rewrite !xorb_false_r. apply binary_round_aux_opp.
Qed.

Lemma clamp_code_opp v :
  v <> S754_nan -> clamp_code (SFopp v) = SFopp (clamp_code v).
Proof.
  destruct v as [s | s | | s m e]; intros Hv; try congruence.
  - destruct s; reflexivity.
  - destruct s; reflexivity.
  - cbn [SFopp]. rewrite !clamp_code_finite.
    destruct (inside m e); destruct s; reflexivity.
Qed.

Lemma trunc_opp r :
  Float32.trunc (SFopp r) = option_map Z.opp (Float32.trunc r).
Proof.
  destruct r as [s | s | | s m e]; cbn [SFopp Float32.trunc option_map];
    try reflexivity.
  f_equal. destruct s; cbn [negb cond_Zopp]; lia.
Qed.

(** The conversion is odd: a sample and its negation convert to opposite
    PCM values, so the positive and the negative range are treated alike
    (a NaN, which has no negation, aside). *)
Theorem pcm_of_float_odd (x y : float) :
  Float32.value y = SFopp (Float32.value x) ->
  Float32.value x <> S754_nan ->
  exists z, pcm_of_float x = Some z /\ pcm_of_float y = Some (- z).
Proof.
  intros Hy Hx.
  destruct (pcm_of_float_spec x) as (z & Hz & _ & Hrx).
  destruct (pcm_of_float_spec y) as (z' & Hz' & _ & Hry).
  exists z. split; [ exact Hz | ].
  rewrite Hz'. f_equal.
  rewrite pcm_of_float_eq in Hz, Hz'.
  unfold Float32.static_cast_int16 in Hz, Hz'.
  assert (Hc : clamp_code (Float32.value x) <> S754_nan).
  { destruct (Float32.value x) as [s | s | | s m e].
    - destruct s; discriminate.
    - destruct s; discriminate.
    - congruence.
    - rewrite clamp_code_finite.
      destruct (inside m e); [ discriminate | destruct s; discriminate ]. }
  rewrite Hy in Hz'. rewrite (clamp_code_opp _ Hx) in Hz'.
  rewrite (mul_opp _ Hc) in Hz'. rewrite trunc_opp in Hz'.
  destruct (Float32.trunc (Float32.mul (clamp_code (Float32.value x))
                             Float32.lit_32767_0f)) as [q | ];
    [ | discriminate Hz ].
  cbn [option_map] in Hz'.
  destruct ((-32768 <=? q) && (q <=? 32767)); [ | discriminate Hz ].
  destruct ((-32768 <=? - q) && (- q <=? 32767)); [ | discriminate Hz' ].
  congruence.
Qed.

Lemma pcm_of_float_odd_witness :
  exists z,
    pcm_of_float f_tenth = Some z /\
    pcm_of_float (mk_float xcd xcc xcc xbd) = Some (- z).
Proof.
  apply (pcm_of_float_odd f_tenth (mk_float xcd xcc xcc xbd)).
  - reflexivity.
  - discriminate.
Defined.

(** The two conversions of the witness, evaluated. *)
Example pcm_of_float_tenth :
  pcm_of_float f_tenth = Some 3276 /\
  pcm_of_float (mk_float xcd xcc xcc xbd) = Some (-3276).
Proof. split; vm_compute; reflexivity. Qed.

(** ** Construction *)

(** The constructor always returns a handle, initialised exactly when the
    backend came up, enumeration succeeded and there is a device.  An
    initialised handle keeps the context and has the first enumerated
    device selected, under index 0 and its friendly name, or
    ["Unknown Device"] when it has none; a [startCapture] without explicit
    index that then succeeds has created its stream on that device.  A
    handle that failed to initialise has no device, index -1 and an empty
    device name, and when the backend had come up its context has been
    destroyed, once, and the pointer reset. *)
Theorem constructor_selects_first_device
    (be : backend) (cb : AudioDataCallback) :
  exists this t,
    AudioCapture_ctor be cb = Some (this, t) /\
    (initialized this = true <-> ~ init_fails be) /\
    (initialized this = true ->
     exists d0 rest,
       snd (cubeb_enumerate_devices be) = d0 :: rest /\
       inputDeviceIndex this = 0 /\ inputDeviceId this = devid d0 /\
       getCurrentInputDevice this
       = match friendly_name d0 with
         | Some name => name
         | None => "Unknown Device"%string
         end /\
       context this = snd (cubeb_init be) /\
       count is_context_destroy t = 0%nat /\
       forall be' this' t',
         startCapture be' (-1) this = Some (true, this', t') ->
         In (E_cubeb_stream_init (snd (cubeb_init be)) (devid d0)
               requested_params 4096) t' /\
         getCurrentInputDevice this' = getCurrentInputDevice this) /\
    (initialized this = false ->
     inputDeviceIndex this = -1 /\ inputDeviceId this = None /\
     getCurrentInputDevice this = EmptyString /\
     (fst (cubeb_init be) = CUBEB_OK ->
      context this = None /\
      filter is_context_destroy t = [E_cubeb_destroy (snd (cubeb_init be))])).
Proof.
  unfold AudioCapture_ctor, init_fails. rewrite initializeCubeb_eq.
  destruct (cubeb_init be) as [r0 ctx]. cbn [fst snd].
  destruct (Z.eqb_spec r0 CUBEB_OK) as [Hr0 | Hr0]; cbn [negb].
  2:{ eexists; eexists. split; [ reflexivity | ]. cbn.
      split; [ split; [ discriminate | intros H; exfalso; apply H; auto ] | ].
      split; [ discriminate | ]. intros _. repeat split; congruence. }
  destruct (cubeb_enumerate_devices be) as [r1 collection]. cbn [fst snd].
  destruct (Z.eqb_spec r1 CUBEB_OK) as [Hr1 | Hr1]; cbn [negb].
  2:{ eexists; eexists. split; [ reflexivity | ]. cbn.
      split; [ split; [ discriminate | intros H; exfalso; apply H; auto ] | ].
      split; [ discriminate | ]. intros _. repeat split. }
  destruct collection as [ | d0 rest].
  { eexists; eexists. split; [ reflexivity | ]. cbn.
    split; [ split; [ discriminate | intros H; exfalso; apply H; auto ] | ].
    split; [ discriminate | ]. intros _. repeat split. }
  eexists; eexists. split; [ reflexivity | ].
  split.
  { split; [ intros _ [H | [H | H]]; congruence | reflexivity ]. }
  split; [ | discriminate ].
  intros _. exists d0, rest.
  split; [ reflexivity | ]. split; [ reflexivity | ].
  split; [ reflexivity | ]. split; [ reflexivity | ].
  split; [ reflexivity | ]. split; [ reflexivity | ].
  intros be' this' t' Hrun.
  destruct (startCapture_device _ _ _ _ _ Hrun)
    as (Hin & _ & Hdef & _).
  destruct (Hdef ltac:(lia)) as [Hdev Hname].
  rewrite Hdev in Hin. split; [ exact Hin | exact Hname ].
Qed.

Lemma constructor_selects_first_device_witness :
  exists this t,
    AudioCapture_ctor be_plain (Some 0%nat) = Some (this, t) /\
    initialized this = true /\
    getCurrentInputDevice this = "Built-in Mic"%string /\
    inputDeviceId this = Some 1%nat.
Proof.
  destruct (constructor_selects_first_device be_plain (Some 0%nat))
    as (this & t & Hctor & Hinit & Hok & _).
  assert (Hi : initialized this = true).
  { apply Hinit. intros [H | [H | H]]; [ apply H; reflexivity
                                        | apply H; reflexivity
                                        | discriminate H ]. }
  destruct (Hok Hi) as (d0 & rest & Hcoll & _ & Hdev & Hname & _).
  cbn in Hcoll. inversion Hcoll; subst d0 rest.
  exists this, t. split; [ exact Hctor | ].
  split; [ exact Hi | ]. split; [ exact Hname | exact Hdev ].
Defined.

Lemma enumerated_collection_released_once_witness :
  exists r this' t,
    startCapture be_plain 1 fresh_handle = Some (r, this', t) /\
    count is_enumerate t = 1%nat /\ count is_collection_destroy t = 1%nat.
Proof.
  destruct (startCapture be_plain 1 fresh_handle) as [[[r this'] t] | ] eqn:Hrun;
    [ | vm_compute in Hrun; discriminate Hrun ].
  destruct (enumerated_collection_released_once be_plain) as (_ & _ & Hstart & _).
  destruct (Hstart _ _ _ _ _ Hrun) as [Hle Heq].
  cbn in Heq.
  assert (Hone : count is_enumerate t = 1%nat).
  { vm_compute in Hrun. inversion Hrun. reflexivity. }
  exists r, this', t. split; [ reflexivity | ].
  split; [ exact Hone | ]. rewrite Heq. exact Hone.
Defined.

Lemma session_export_round_trip_witness :
  exists this2 this3 t3 pcm,
    deliver capturing_handle two_buffers 2 = Some ([2; 2], this2) /\
    stopCapture be_stop_error this2 = Some (true, this3, t3) /\
    Forall2 (fun x z => spec_pcm (Float32.value x) z /\ -32767 <= z <= 32767)
            (List.concat two_buffers) pcm /\
    saveRecordedAudio enc_plain this3
    = Some (true, this3,
            [E_drwav_init_file_write "captured-audio.wav"
               (DrWav.mk_format DrWav.drwav_container_riff
                  DrWav.DR_WAVE_FORMAT_PCM 2 48000 16);
             E_drwav_write_pcm_frames 4 pcm; E_drwav_uninit]).
Proof.
  assert (Hrun : startCapture be_plain (-1) recorded_handle
                 = Some (true, capturing_handle,
                         [E_cubeb_stream_init (Some 0%nat) (Some 1%nat)
                            requested_params 4096;
                          E_cubeb_stream_get_latency (Some 7%nat);
                          E_cubeb_stream_start (Some 7%nat)]))
    by (vm_compute; reflexivity).
  destruct (session_export_round_trip be_plain be_stop_error enc_plain (-1)
              recorded_handle capturing_handle _ 2 two_buffers Hrun)
    as (this2 & this3 & t3 & pcm & Hd & Hs & Hall & Hsave).
  - reflexivity.
  - reflexivity.
  - vm_compute. discriminate.
  - repeat constructor.
  - discriminate.
  - vm_compute. discriminate.
  - exists this2, this3, t3, pcm.
    split; [ exact Hd | ]. split; [ exact Hs | ]. split; [ exact Hall | ].
    cbv zeta in Hsave. rewrite Hsave.
    assert (Hout : outputFile this3 = "captured-audio.wav"%string).
    { assert (Hd' : deliver capturing_handle two_buffers 2
                    = Some ([2; 2],
                            set_recordedAudio
                              (chars_of_floats (List.concat two_buffers))
                              capturing_handle))
        by (vm_compute; reflexivity).
      rewrite Hd' in Hd. inversion Hd; subst this2.
      rewrite stopCapture_eq in Hs. inversion Hs; subst this3. reflexivity. }
    rewrite Hout. reflexivity.
Defined.

(** ** What the control plane never touches *)

(** No control-plane call changes the [initialized] flag or the context
    pointer: a handle whose initialisation failed stays uninitialised, and
    an initialised handle keeps its context until it is destroyed. *)
Theorem control_plane_keeps_context
    (c : api_call) (this : AudioCapture)
    (r : api_result) (this' : AudioCapture) (t : list event) :
  api_step c this = Some (r, this', t) ->
  initialized this' = initialized this /\ context this' = context this.
Proof.
  intros Hstep.
  destruct c as [be i | be | be i | be | cb | f | enc];
    unfold api_step, bind, ret in Hstep.
  - destruct (startCapture be i this) as [[[b this1] t1] | ] eqn:Hrun;
      [ | discriminate ].
    inversion Hstep; subst; clear Hstep.
    rewrite startCapture_eq in Hrun.
    destruct (negb (initialized this)); [ inversion Hrun; auto | ].
    destruct (capturing this); [ inversion Hrun; auto | ].
    assert (Hsel : forall ok s1 tr1,
               (if 0 <=? i then setInputDevice be i this
                else Some (true, this, [])) = Some (ok, s1, tr1) ->
               initialized s1 = initialized this /\
               context s1 = context this).
    { intros ok s1 tr1 Hs. destruct (0 <=? i).
      - apply setInputDevice_frame in Hs. tauto.
      - inversion Hs; auto. }
    destruct (if 0 <=? i then setInputDevice be i this else Some (true, this, []))
      as [[[ok s1] tr1] | ]; [ | discriminate ].
    specialize (Hsel ok s1 tr1 eq_refl).
    destruct (negb ok); [ inversion Hrun; subst; exact Hsel | ].
    destruct (is_null (inputDeviceId s1)); [ inversion Hrun; subst; exact Hsel | ].
    destruct (cubeb_stream_init be _ _ _ _) as [[r0 stm] p].
    destruct (negb (r0 =? CUBEB_OK)); [ inversion Hrun; subst; exact Hsel | ].
    destruct (negb (cubeb_stream_start be =? CUBEB_OK));
      inversion Hrun; subst; exact Hsel.
  - rewrite stopCapture_eq in Hstep. inversion Hstep; subst.
    destruct (capturing this); auto.
  - destruct (setInputDevice be i this) as [[[b this1] t1] | ] eqn:Hrun;
      [ | discriminate ].
    inversion Hstep; subst. apply setInputDevice_frame in Hrun. tauto.
  - rewrite getAvailableInputDevices_eq in Hstep.
    destruct (negb (initialized this) || is_null (context this));
      [ inversion Hstep; auto | ].
    destruct (cubeb_enumerate_devices be) as [r0 collection].
    destruct (negb (r0 =? CUBEB_OK)); inversion Hstep; auto.
  - unfold setCallback, store in Hstep. inversion Hstep; auto.
  - unfold setOutputFile, store in Hstep. inversion Hstep; auto.
  - destruct (saveRecordedAudio enc this) as [[[b this1] t1] | ] eqn:Hrun;
      [ | discriminate ].
    inversion Hstep; subst. rewrite saveRecordedAudio_eq in Hrun.
    destruct (recordedAudio this); [ inversion Hrun; auto | ].
    cbv zeta in Hrun.
    destruct (convert_loop _ []) as [pcm | ]; [ | discriminate ].
    destruct (negb (DrWav.drwav_init_file_write enc _ _));
      [ inversion Hrun; auto | ].
    destruct (to_size_t (channelCount this) =? 0); [ discriminate | ].
    inversion Hrun; auto.
Qed.

Lemma control_plane_keeps_context_witness :
  exists r this' t,
    api_step (Call_startCapture be_start_rejected 1) fresh_handle
    = Some (r, this', t) /\
    initialized this' = true /\ context this' = Some 0%nat.
Proof.
  destruct (api_step (Call_startCapture be_start_rejected 1) fresh_handle)
    as [[[r this'] t] | ] eqn:Hstep;
    [ | vm_compute in Hstep; discriminate Hstep ].
  destruct (control_plane_keeps_context _ _ _ _ _ Hstep) as [Hi Hc].
  exists r, this', t. split; [ reflexivity | ].
  split; [ rewrite Hi; reflexivity | rewrite Hc; reflexivity ].
Defined.

(** ** Whole samples *)

(** Whenever a data callback on a non-null buffer returns, it returns the
    frame count it was given and has appended the bytes of the first [k]
    samples of the buffer, whole samples only, where [k] is the product
    [nframes * channelCount] as an [int]; it does so whether or not the
    handle is capturing, and changes nothing but the recording. *)
Theorem dataCallback_appends_whole_samples
    (capture : AudioCapture) (b : list float) (nframes : Z)
    (r : Z) (user_ptr' : option AudioCapture) (t : list event) :
  dataCallback (Some capture) (Some b) nframes = Some (r, user_ptr', t) ->
  let k := to_int (nframes * channelCount capture) in
  r = nframes /\ 0 <= k <= Z.of_nat (List.length b) /\
  (INT_MIN <= nframes * channelCount capture <= INT_MAX ->
   k = nframes * channelCount capture) /\
  user_ptr' = Some (set_recordedAudio
                      (recordedAudio capture
                       ++ chars_of_floats (firstn (Z.to_nat k) b)) capture) /\
  Z.of_nat (List.length (chars_of_floats (firstn (Z.to_nat k) b)))
  = k * sizeof_float.
Proof.
  unfold dataCallback. rewrite dataCallback_capture_eq. cbv zeta.
  destruct (in_long (nframes * channelCount capture)) eqn:Hlong;
    cbn [negb]; [ | discriminate ].
  destruct ((to_int (nframes * channelCount capture) <? 0)
            || (Z.of_nat (List.length b) <? to_int (nframes * channelCount capture)))
    eqn:Hrange; [ discriminate | ].
  apply orb_false_iff in Hrange. destruct Hrange as [Hlo Hhi].
  apply Z.ltb_ge in Hlo. apply Z.ltb_ge in Hhi.
  set (k := to_int (nframes * channelCount capture)) in *.
  intros H. inversion H; subst r user_ptr' t; clear H.
  assert (Hk : k <= INT_MAX).
  { unfold k, to_int, INT_MAX.
    pose proof (Z.mod_pos_bound (nframes * channelCount capture + 2 ^ 31) (2 ^ 32)
                  ltac:(reflexivity)) as Hm.
    change (2 ^ 32) with 4294967296 in *. change (2 ^ 31) with 2147483648 in *.
    lia. }
  assert (Hbytes : Z.to_nat (to_size_t (to_size_t k * sizeof_float))
                   = (4 * Z.to_nat k)%nat).
  { unfold sizeof_float, INT_MAX in *.
    rewrite (to_size_t_small k) by (change (2 ^ 64) with 18446744073709551616; lia).
    rewrite to_size_t_small by (change (2 ^ 64) with 18446744073709551616; lia).
    lia. }
  rewrite Hbytes, firstn_chars_of_floats.
  split; [ reflexivity | ]. split; [ lia | ].
  split; [ intros Hin; apply to_int_small; exact Hin | ].
  split; [ reflexivity | ].
  rewrite chars_of_floats_length, length_firstn. unfold sizeof_float. lia.
Qed.

Lemma dataCallback_appends_whole_samples_witness :
  exists user_ptr' t,
    dataCallback (Some recorded_handle) (Some [f_tenth; f_one; f_half]) 2
    = Some (2, user_ptr', t) /\
    user_ptr' = Some (set_recordedAudio
                        (chars_of_floats [f_one; f_half; f_tenth; f_one])
                        recorded_handle).
Proof.
  destruct (dataCallback (Some recorded_handle) (Some [f_tenth; f_one; f_half]) 2)
    as [[[r user_ptr'] t] | ] eqn:Hrun;
    [ | vm_compute in Hrun; discriminate Hrun ].
  destruct (dataCallback_appends_whole_samples _ _ _ _ _ _ Hrun)
    as (Hr & _ & _ & Hptr & _).
  subst r. exists user_ptr', t. split; [ reflexivity | ].
  rewrite Hptr. reflexivity.
Defined.

(** ** Replacing the callback *)

(** After [setCallback] the next delivery goes to the new callback and to
    no other, and after [setCallback] with an empty function deliveries
    invoke nothing while the samples are still recorded. *)
Theorem setCallback_redirects_deliveries
    (cb : AudioDataCallback) (this : AudioCapture) (b : list float) (F : Z) :
  Z.of_nat (List.length b) = F * channelCount this ->
  F * channelCount this <= INT_MAX ->
  exists this1,
    setCallback cb this = Some (tt, this1, []) /\
    dataCallback (Some this1) (Some b) F
    = Some (F,
            Some (set_recordedAudio (recordedAudio this ++ chars_of_floats b)
                    this1),
            match cb with
            | Some f => [E_callback f b (to_int F) (getSampleRate this)
                           (getChannelCount this)]
            | None => []
            end).
Proof.
  intros Hlen Hmax. exists (set_callback cb this).
  split; [ reflexivity | ].
  exact (dataCallback_delivery_trace (set_callback cb this) b F Hlen Hmax).
Qed.

Lemma setCallback_redirects_deliveries_witness :
  exists this1,
    setCallback None capturing_handle = Some (tt, this1, []) /\
    dataCallback (Some this1) (Some [f_one; f_half]) 1
    = Some (1, Some (set_recordedAudio (chars_of_floats [f_one; f_half]) this1), []).
Proof.
  apply (setCallback_redirects_deliveries None capturing_handle [f_one; f_half] 1).
  - reflexivity.
  - vm_compute. discriminate.
Defined.
